(** * Targeting_fragment_size.py: a shallow embedding and its properties

    The script has two independent stages.  Stage 1 ([calc-distances])
    indexes restriction-enzyme cut sites, finds for every integration site
    the nearest cut site on each side and writes a wide CSV table.  Stage 2
    ([finalize-distances]) reads that table back, picks per site and per
    offset the upstream or the downstream column and adds the offset.

    Python integers are unbounded, hence [Z].  Dictionaries that are
    iterated are insertion-ordered association lists; dictionaries that are
    only looked up are [gmap]s; the field-name [set] is a [gset].  Files and
    standard output are threaded through a state-and-exception monad.  What
    the interpreter decides and the script does not ([int] on a string, the
    order in which a set is enumerated) is a parameter, [Interpreter]. *)

From Stdlib Require Import ZArith Lia String Ascii DecimalString.

From stdpp Require Import base option list sorting strings gmap.

Local Open Scope string_scope.

Local Open Scope list_scope.

Local Open Scope Z_scope.

(** ** Python values and built-ins *)

(** The values the script stores in rows: [None], a [str] or an [int]. *)
Inductive pyval : Type :=
  | PNone
  | PStr (s : string)
  | PInt (z : Z).

#[global] Instance pyval_eq_dec : EqDecision pyval.
Proof. solve_decision. Defined.

(** A value handed out by [csv.DictReader]: a [str], or [None] when the row
    is shorter than the header (the reader's [restval]). *)
Abbreviation cell := (option string).

Definition of_cell (c : cell) : pyval :=
  match c with
  | Some s => PStr s
  | None => PNone
  end.

(** [str(z)] for an [int]: decimal digits, a leading minus sign when negative. *)
Definition str_of_Z (z : Z) : string := NilZero.string_of_int (Z.to_int z).

(** [str(v)], which is also what an f-string interpolates. *)
Definition py_str (v : pyval) : string :=
  match v with
  | PNone => "None"
  | PStr s => s
  | PInt z => str_of_Z z
  end.

(** What [csv.writer] puts in a field: [None] becomes the empty field,
    everything else goes through [str]. *)
Definition csv_field (v : pyval) : string :=
  match v with
  | PNone => ""
  | _ => py_str v
  end.

(** An [int] for the examples: base ten on ASCII strings.  Surrounding
    white space (tab to carriage return, and the space) is dropped, one sign
    is allowed, the digits may be grouped by single underscores, and more
    than 4300 digits are refused.  It is not the interpreter's [int], which
    also reads the decimal digits and the spaces of other scripts; the two
    agree on the fields of the examples, which is all it is used for.  The
    script itself is modelled over any [int], see [Interpreter] below. *)
Definition is_space (a : ascii) : bool :=
  let n := nat_of_ascii a in
  ((9 <=? n) && (n <=? 13) || (n =? 32))%nat.

Definition digit_of (a : ascii) : option Z :=
  let n := Z.of_nat (nat_of_ascii a) in
  if (48 <=? n) && (n <=? 57) then Some (n - 48) else None.

Fixpoint lstrip (cs : list ascii) : list ascii :=
  match cs with
  | c :: r => if is_space c then lstrip r else cs
  | [] => []
  end.

Definition strip (cs : list ascii) : list ascii :=
  reverse (lstrip (reverse (lstrip cs))).

Fixpoint parse_digits (after_digit : bool) (acc : Z) (cs : list ascii) : option Z :=
  match cs with
  | [] => if after_digit then Some acc else None
  | c :: r =>
      match digit_of c with
      | Some d => parse_digits true (10 * acc + d) r
      | None =>
          if bool_decide (c = "_"%char) && after_digit
          then parse_digits false acc r
          else None
      end
  end.

Definition ascii_int (s : string) : option Z :=
  let cs := strip (list_ascii_of_string s) in
  if 4300 <? Z.of_nat (length (omap digit_of cs)) then None
  else match cs with
       | "+"%char :: r => parse_digits false 0 r
       | "-"%char :: r => Z.opp <$> parse_digits false 0 r
       | r => parse_digits false 0 r
       end.

(** *** Insertion-ordered dictionaries

    A Python [dict] iterates in insertion order, and assigning to a key that
    is already there keeps the key's place.  Keys are unique, so iterating
    over the items is iterating over the keys and looking each one up. *)
Section odict.

Context {K V : Type} `{EqDecision K}.

Definition odict : Type := list (K * V).

Fixpoint od_get (k : K) (d : odict) : option V :=
  match d with
  | [] => None
  | (k', v) :: r => if decide (k = k') then Some v else od_get k r
  end.

Definition od_mem (k : K) (d : odict) : bool := bool_decide (is_Some (od_get k d)).

Fixpoint od_set (k : K) (v : V) (d : odict) : odict :=
  match d with
  | [] => [(k, v)]
  | (k', v') :: r =>
      if decide (k = k') then (k, v) :: r else (k', v') :: od_set k v r
  end.

End odict.

Arguments odict : clear implicits.

(** ** Files, standard output and exceptions *)

Inductive exn : Type :=
  | ValueError
  | TypeError
  | KeyError
  | FileNotFoundError.

#[global] Instance exn_eq_dec : EqDecision exn.
Proof. solve_decision. Defined.

(** One constructor per [print] call of the script, carrying what the
    message interpolates. *)
Inductive event : Type :=
  | WarnEnzymeRow (row : list string)
  | WarnIntegrationRow (row : list string)
  | InfoNoResults
  | InfoWritten (filename : string)
  | InfoFinalWritten (filename : string).

(** A CSV file is the list of records that [csv.reader] yields from it and
    that [csv.writer] was given to produce it; quoting is the [csv]
    module's business.

    The model describes the runs in which the file system cooperates: a
    path either names a file that can be opened, decoded as UTF-8 and split
    into records, or names nothing, and every path can be written.  What
    the operating system or the [csv] module may refuse besides (a
    directory or a missing directory in the place of a file, permissions,
    bytes that are not UTF-8, an oversize field, a full disk) is outside the
    model, and no statement below is about such a run. *)
Record world : Type := World {
  files : gmap string (list (list string));
  stdout : list event
}.

Inductive result (A : Type) : Type :=
  | Ok (a : A)
  | Raise (e : exn).

Arguments Ok {A} a.

Arguments Raise {A} e.

Definition M (A : Type) : Type := world → result A * world.

Definition ret {A} (a : A) : M A := λ w, (Ok a, w).

Definition bind {A B} (m : M A) (k : A → M B) : M B :=
  λ w, match m w with
       | (Ok a, w') => k a w'
       | (Raise e, w') => (Raise e, w')
       end.

Definition raise {A} (e : exn) : M A := λ w, (Raise e, w).

Notation "'let*' x ':=' m 'in' k" := (bind m (λ x, k))
  (at level 10, x pattern, m at level 100, k at level 200).

Notation "m '>>' k" := (bind m (λ _, k))
  (at level 100, k at level 200, right associativity).

Fixpoint foldM {S A} (body : S → A → M S) (acc : S) (l : list A) : M S :=
  match l with
  | [] => ret acc
  | x :: r => let* acc' := body acc x in foldM body acc' r
  end.

Fixpoint for_each {A} (l : list A) (body : A → M unit) : M unit :=
  match l with
  | [] => ret ()
  | x :: r => body x >> for_each r body
  end.

Definition print (e : event) : M unit :=
  λ w, (Ok (), World (files w) (stdout w ++ [e])).

(** [open(filename, 'r')] followed by reading every record.  A path that
    names nothing raises [FileNotFoundError]. *)
Definition open_read (filename : string) : M (list (list string)) :=
  λ w, match files w !! filename with
       | Some rows => (Ok rows, w)
       | None => (Raise FileNotFoundError, w)
       end.

(** [open(filename, 'w')]: the file is created, or emptied if it exists. *)
Definition open_write (filename : string) : M unit :=
  λ w, (Ok (), World (<[filename := []]> (files w)) (stdout w)).

Definition writerow (filename : string) (row : list string) : M unit :=
  λ w, (Ok (),
        World (<[filename := default [] (files w !! filename) ++ [row]]> (files w))
              (stdout w)).

(** *** What the interpreter decides

    The script relies on two built-ins whose result is fixed by the
    interpreter that runs it and not by the script.

    [int] on a [str]: which digits and which white space are accepted
    (Unicode decimal digits and spaces among them) and how many digits (4300
    by default) depends on the interpreter and its settings.  [py_int s] is
    the integer [int(s)] returns, [None] when [int(s)] raises [ValueError];
    there is no other outcome on a [str].

    [list] on a [set]: the order of the result depends on the hash seed of
    the run.  [py_list_of_set] is any enumeration without repetition.  The
    script enumerates one set per run, so an order that is a function of the
    set's content covers every run.

    Both are parameters of the model, and every statement in the section
    below holds whatever they are. *)
Class Interpreter : Type := {
  py_int : string → option Z;
  py_list_of_set : gset string → list string;
  py_list_of_set_perm : ∀ X, py_list_of_set X ≡ₚ elements X
}.

(** The interpreter the examples are run with: [ascii_int], and the sets
    enumerated in the order of [elements]. *)
Definition example_interpreter : Interpreter :=
  {| py_int := ascii_int;
     py_list_of_set := elements;
     py_list_of_set_perm := λ X, reflexivity (elements X) |}.

(** ** Section 1 of the script, continued: index, distances, result table *)

(** [enzyme_positions]: enzyme, then chromosome, then positions. *)
Abbreviation index := (odict string (odict string (list Z))).

(** [lengths]: enzyme name (the [Name] cell, [None] on a short row), then
    offset name, then offset. *)
Abbreviation lengths_t := (odict cell (gmap string Z)).

(** [directions]: site identifier, then the whole directions row. *)
Abbreviation directions_t := (gmap cell (gmap string cell)).

Abbreviation record := (gmap string pyval).

Section script.
Context {interp : Interpreter}.

(** [int(s)] where [s] is a [str]. *)
Definition int_str (s : string) : M Z :=
  match py_int s with
  | Some z => ret z
  | None => raise ValueError
  end.

(** [int(c)] where [c] came out of a [DictReader] row: [int(None)] is a
    [TypeError]. *)
Definition int_cell (c : cell) : M Z :=
  match c with
  | Some s => int_str s
  | None => raise TypeError
  end.

(** [d[k]] on a dictionary that is only looked up. *)
Definition getitem {V} (d : gmap string V) (k : string) : M V :=
  match d !! k with
  | Some v => ret v
  | None => raise KeyError
  end.

(** ** Section 1 of the script: the nearest-site locator *)

(** The [for pos in positions] loop of [find_closest], with the two local
    variables as accumulators.  The second branch is the one that ends in
    [break]: it returns without looking at the rest of the list. *)
Fixpoint find_closest_loop (positions : list Z) (target : Z)
    (upstream downstream : option Z) : option Z * option Z :=
  match positions with
  | [] => (upstream, downstream)
  | pos :: rest =>
      if pos <? target then find_closest_loop rest target (Some pos) downstream
      else if (pos >? target) && bool_decide (downstream = None)
           then (upstream, Some pos)
           else find_closest_loop rest target upstream downstream
  end.

Definition find_closest (positions : list Z) (target : Z) : option Z * option Z :=
  find_closest_loop positions target None None.

(** What the locator is meant to return, stated without reference to the
    scan: the greatest element below the target, the least element above. *)
Definition greatest_below (P : list Z) (t : Z) (u : option Z) : Prop :=
  match u with
  | Some x => x ∈ P ∧ x < t ∧ ∀ y, y ∈ P → y < t → y ≤ x
  | None => ∀ y, y ∈ P → ¬ y < t
  end.

Definition least_above (P : list Z) (t : Z) (d : option Z) : Prop :=
  match d with
  | Some x => x ∈ P ∧ t < x ∧ ∀ y, y ∈ P → t < y → x ≤ y
  | None => ∀ y, y ∈ P → ¬ t < y
  end.

(** The body of the reading loop of [read_enzyme_positions].  The two
    [not in] tests create the missing entries first; [int(position)] is
    evaluated after them and may raise. *)
Definition read_enzyme_positions_row (enzyme_positions : index)
    (row : list string) : M index :=
  match row with
  | [enzyme; chromosome; position] =>
      let ep1 :=
        if od_mem enzyme enzyme_positions then enzyme_positions
        else od_set enzyme [] enzyme_positions in
      let chroms := default [] (od_get enzyme ep1) in
      let chroms1 :=
        if od_mem chromosome chroms then chroms
        else od_set chromosome [] chroms in
      let* p := int_str position in
      let ps := default [] (od_get chromosome chroms1) in
      ret (od_set enzyme (od_set chromosome (ps ++ [p]) chroms1) ep1)
  | _ => print (WarnEnzymeRow row) >> ret enzyme_positions
  end.

(** The closing double loop: every position list is sorted ascending. *)
Definition sort_positions (enzyme_positions : index) : index :=
  map (λ '(enzyme, chroms),
         (enzyme, map (λ '(chrom, positions), (chrom, merge_sort Z.le positions))
                      chroms))
      enzyme_positions.

Definition read_enzyme_positions (filename : string) : M index :=
  let* rows := open_read filename in
  let* enzyme_positions := foldM read_enzyme_positions_row [] rows in
  ret (sort_positions enzyme_positions).

(** The two distances of one enzyme for one site, as [calculate_distances]
    computes them inside its [for enzyme in enzyme_positions] loop. *)
Definition enzyme_distances (chroms : odict string (list Z))
    (chromosome : string) (position : Z) : pyval * pyval :=
  match od_get chromosome chroms with
  | Some positions =>
      let '(upstream, downstream) := find_closest positions position in
      (match upstream with
       | Some u => PInt (position - u)
       | None => PStr "N/A"
       end,
       match downstream with
       | Some d => PInt (d - position)
       | None => PStr "N/A"
       end)
  | None => (PStr "N/A", PStr "N/A")
  end.

(** What the enzyme loop appends to [row_data]: for every enzyme its name
    and its two distances. *)
Definition enzyme_columns (enzyme_positions : index) (chromosome : string)
    (position : Z) : list pyval :=
  flat_map (λ '(enzyme, chroms),
              let '(upstream_distance, downstream_distance) :=
                enzyme_distances chroms chromosome position in
              [PStr enzyme; upstream_distance; downstream_distance])
           enzyme_positions.

Definition calculate_distances_row (enzyme_positions : index)
    (results : list (list pyval)) (row : list string) : M (list (list pyval)) :=
  match row with
  | [site_id; chromosome; position] =>
      let* position := int_str position in
      let row_data :=
        [PStr site_id; PStr chromosome; PInt position]
        ++ enzyme_columns enzyme_positions chromosome position in
      ret (results ++ [row_data])
  | _ => print (WarnIntegrationRow row) >> ret results
  end.

Definition calculate_distances (enzyme_positions : index)
    (integration_sites : string) : M (list (list pyval)) :=
  let* rows := open_read integration_sites in
  foldM (calculate_distances_row enzyme_positions) [] rows.

(** [chunked[i] for i in range(0, len(chunked), 3)]. *)
Fixpoint every_third {A} (chunked : list A) : list A :=
  match chunked with
  | [] => []
  | x :: r =>
      x :: match r with
           | _ :: _ :: r' => every_third r'
           | _ => []
           end
  end.

Definition results_header (enzyme_names : list pyval) : list string :=
  ["IntegrationSite#"; "Chromosome"; "Position"]
  ++ flat_map (λ enzyme, [py_str enzyme +:+ " UpstreamDist";
                          py_str enzyme +:+ " DownstreamDist"])
              enzyme_names.

Definition write_results (results : list (list pyval)) (filename : string) : M unit :=
  match results with
  | [] => print InfoNoResults
  | row_example :: _ =>
      let enzyme_names := every_third (drop 3 row_example) in
      let header := results_header enzyme_names in
      open_write filename >>
      writerow filename header >>
      for_each results (λ row_data, writerow filename (csv_field <$> row_data)) >>
      print (InfoWritten filename)
  end.

(** ** Section 2 of the script: fragment lengths and directions *)

(** One row of [csv.DictReader]: the header zipped with the fields, a
    later duplicate of a column name winning; columns the row is too short
    for are then set to [None].  Fields beyond the header go under the key
    [None], which no lookup of the script ever uses, so they are dropped. *)
Definition dict_of_row (fieldnames row : list string) : gmap string cell :=
  foldl (λ d kv, <[kv.1 := kv.2]> d) ∅
        (zip fieldnames
             ((Some <$> row) ++ replicate (length fieldnames - length row) None)).

(** [csv.DictReader]: the first record is the header, blank records after
    it are skipped. *)
Definition DictReader (rows : list (list string)) : list (gmap string cell) :=
  match rows with
  | [] => []
  | fieldnames :: data =>
      dict_of_row fieldnames <$> filter (λ r, r ≠ []) data
  end.

Definition read_fragment_lengths_row (lengths : lengths_t)
    (row : gmap string cell) : M lengths_t :=
  let* enzyme_name := getitem row "Name" in
  let* l := getitem row "L" in
  let* l := int_cell l in
  let* h := getitem row "H" in
  let* h := int_cell h in
  ret (od_set enzyme_name {[ "L" := l; "H" := h ]} lengths).

Definition read_fragment_lengths (filename : string) : M lengths_t :=
  let* rows := open_read filename in
  foldM read_fragment_lengths_row [] (DictReader rows).

Definition read_directions_row (directions : directions_t)
    (row : gmap string cell) : M directions_t :=
  let* site_id := getitem row "IntegrationSite#" in
  ret (<[site_id := row]> directions).

Definition read_directions (filename : string) : M directions_t :=
  let* rows := open_read filename in
  foldM read_directions_row ∅ (DictReader rows).

Definition direction_key (enzyme : cell) (direction_type : string) : string :=
  py_str (of_cell enzyme) +:+ "_" +:+ direction_type.

(** [dist_key]: the distance column picked by the user's direction, [None]
    when the direction is neither ["up"] nor ["down"]. *)
Definition dist_key (enzyme : cell) (user_direction : cell) : option string :=
  if decide (user_direction = Some "up")
  then Some (py_str (of_cell enzyme) +:+ " UpstreamDist")
  else if decide (user_direction = Some "down")
  then Some (py_str (of_cell enzyme) +:+ " DownstreamDist")
  else None.

(** The value stored under [direction_key]: the body of the innermost loop
    of [calculate_final_distances], from [user_direction] to the
    assignment.  The guard is [dist_key and dist_key in row and
    row[dist_key] != 'N/A']. *)
Definition final_distance (row : gmap string cell)
    (site_directions : gmap string cell) (enzyme : cell)
    (offsets : gmap string Z) (direction_type : string) : M pyval :=
  let user_direction :=
    default (Some "") (site_directions !! direction_key enzyme direction_type) in
  match dist_key enzyme user_direction with
  | Some key =>
      match row !! key with
      | Some c =>
          if bool_decide (key ≠ "") && bool_decide (c ≠ Some "N/A")
          then
            let* base_distance := int_cell c in
            let* offset := getitem offsets direction_type in
            ret (PInt (base_distance + offset))
          else ret (PStr "N/A")
      | None => ret (PStr "N/A")
      end
  | None => ret (PStr "N/A")
  end.

(** The loop over [['L', 'H']] for one enzyme. *)
Definition calculate_final_distances_enzyme (row : gmap string cell)
    (site_directions : gmap string cell)
    (st : record * gset string) (item : cell * gmap string Z)
    : M (record * gset string) :=
  foldM (λ '(new_row, dynamic_fieldnames) direction_type,
           let* final := final_distance row site_directions item.1 item.2
                                        direction_type in
           ret (<[direction_key item.1 direction_type := final]> new_row,
                {[direction_key item.1 direction_type]} ∪ dynamic_fieldnames))
        st ["L"; "H"].

(** The body of the loop over the rows of the distances file. *)
Definition calculate_final_distances_row (directions : directions_t)
    (lengths : lengths_t) (st : list record * gset string)
    (row : gmap string cell) : M (list record * gset string) :=
  let* site_id := getitem row "IntegrationSite#" in
  let* chromosome := getitem row "Chromosome" in
  let* position := getitem row "Position" in
  let new_row : record :=
    <["Position" := of_cell position]>
      (<["Chromosome" := of_cell chromosome]>
         {[ "IntegrationSite#" := of_cell site_id ]}) in
  let site_directions := default ∅ (directions !! site_id) in
  let* (new_row, dynamic_fieldnames) :=
    foldM (calculate_final_distances_enzyme row site_directions)
          (new_row, st.2) lengths in
  ret (st.1 ++ [new_row], dynamic_fieldnames).

Definition calculate_final_distances (distances_file : string)
    (directions : directions_t) (lengths : lengths_t)
    : M (list record * list string) :=
  let* rows := open_read distances_file in
  let* (final_distances, dynamic_fieldnames) :=
    foldM (calculate_final_distances_row directions lengths)
          ([], {[ "IntegrationSite#"; "Chromosome"; "Position" ]})
          (DictReader rows) in
  ret (final_distances, py_list_of_set dynamic_fieldnames).

(** [csv.DictWriter.writerow]: a key of the record that is not a field name
    is a [ValueError]; a field name the record lacks is written empty. *)
Definition dict_writerow (filename : string) (fieldnames : list string)
    (rowdict : record) : M unit :=
  if bool_decide (dom rowdict ⊆ list_to_set fieldnames)
  then writerow filename
         ((λ key, csv_field (default (PStr "") (rowdict !! key))) <$> fieldnames)
  else raise ValueError.

Definition write_final_distances (final_distances : list record)
    (fieldnames : list string) (output_filename : string) : M unit :=
  open_write output_filename >>
  writerow output_filename fieldnames >>
  for_each final_distances (dict_writerow output_filename fieldnames) >>
  print (InfoFinalWritten output_filename).

(** ** The entry point *)

(** The parsed command line: the sub-command and its file arguments. *)
Inductive command : Type :=
  | CalcDistances (enzyme_file integration_file output : string)
  | FinalizeDistances (lengths_file directions_file distances_file output : string).

Definition main (args : command) : M unit :=
  match args with
  | CalcDistances enzyme_file integration_file output =>
      let* enzyme_positions := read_enzyme_positions enzyme_file in
      let* results := calculate_distances enzyme_positions integration_file in
      write_results results output
  | FinalizeDistances lengths_file directions_file distances_file output =>
      let* lengths := read_fragment_lengths lengths_file in
      let* directions := read_directions directions_file in
      let* (final_distances, fieldnames) :=
        calculate_final_distances distances_file directions lengths in
      write_final_distances final_distances fieldnames output
  end.

(** ** Running the script on the examples of the documentation *)

Definition enzyme_csv : list (list string) :=
  [["EcoRI"; "chr1"; "100"]; ["EcoRI"; "chr1"; "500"]].

Definition integration_csv : list (list string) := [["site1"; "chr1"; "300"]].

Definition lengths_csv : list (list string) :=
  [["Name"; "L"; "H"]; ["EcoRI"; "50"; "-10"]].

Definition directions_csv : list (list string) :=
  [["IntegrationSite#"; "EcoRI_L"; "EcoRI_H"]; ["site1"; "up"; "up"]].

Definition example_world : world :=
  World (<["enzymes.csv" := enzyme_csv]>
           (<["sites.csv" := integration_csv]>
              (<["lengths.csv" := lengths_csv]>
                 {[ "directions.csv" := directions_csv ]})))
        [].

(** ** Vocabulary for the statements about stage 2 *)

Definition identity_columns : list string :=
  ["IntegrationSite#"; "Chromosome"; "Position"].

(** The (enzyme, offset name) pairs of a Fragment Length Spec, in the order
    the two nested loops visit them. *)
Definition spec_pairs (lengths : lengths_t) : list (cell * gmap string Z * string) :=
  flat_map (λ item, [(item, "L"); (item, "H")]) lengths.

(** Successive dictionary assignments [d[k] = v]. *)
Definition assign_all (d : record) (kvs : list (string * pyval)) : record :=
  foldl (λ d kv, <[kv.1 := kv.2]> d) d kvs.

(** An integer or the sentinel ["N/A"]. *)
Definition distance_value (v : pyval) : Prop :=
  v = PStr "N/A" ∨ ∃ z, v = PInt z.

(** The returned field names are exactly the identity columns and the
    composite names of the Spec. *)
Definition fieldnames_cover_spec (lengths : lengths_t) (fieldnames : list string) : Prop :=
  ∀ k, k ∈ fieldnames ↔
       k ∈ identity_columns
       ∨ ∃ enzyme offsets direction_type,
           (enzyme, offsets) ∈ lengths ∧ direction_type ∈ ["L"; "H"]
           ∧ k = direction_key enzyme direction_type.

(** What one row of the distances table contributes to the result of
    [calculate_final_distances]: the three identity entries, then one
    assignment per pair of the Spec. *)
Definition row_record (directions : directions_t) (lengths : lengths_t)
    (w : world) (row : gmap string cell) (new_row : record) : Prop :=
  ∃ site_id chromosome position kvs,
    row !! "IntegrationSite#" = Some site_id
    ∧ row !! "Chromosome" = Some chromosome
    ∧ row !! "Position" = Some position
    ∧ Forall2 (λ p kv, kv.1 = direction_key p.1.1 p.2
                       ∧ final_distance row (default ∅ (directions !! site_id))
                                        p.1.1 p.1.2 p.2 w = (Ok kv.2, w))
              (spec_pairs lengths) kvs
    ∧ new_row = assign_all (<["Position" := of_cell position]>
                              (<["Chromosome" := of_cell chromosome]>
                                 {[ "IntegrationSite#" := of_cell site_id ]}))
                           kvs.

(** The file [write_results] produces from a non-empty result list. *)
Definition results_table (results : list (list pyval)) : list (list string) :=
  results_header (every_third (drop 3 (default [] (head results))))
  :: map (map csv_field) results.

Definition example_lengths : lengths_t :=
  [(Some "EcoRI", {[ "L" := 50; "H" := -10 ]})].

Definition example_directions : directions_t :=
  {[ Some "site1" := {[ "IntegrationSite#" := Some "site1";
                        "EcoRI_L" := Some "up"; "EcoRI_H" := Some "up" ]} ]}.

Definition example_index : index := [("EcoRI", [("chr1", [100; 500])])].

Definition dirty_world : world :=
  World {[ "e.csv" := [["EcoRI"; "chr1"; "100"]; ["broken"];
                       ["EcoRI"; "chr1"; "500"]];
           "i.csv" := [[]; ["site1"; "chr1"; "300"]; ["a"; "b"; "c"; "d"]] ]} [].

Definition cleaned_world : world :=
  World {[ "e.csv" := [["EcoRI"; "chr1"; "100"]; ["EcoRI"; "chr1"; "500"]];
           "i.csv" := [["site1"; "chr1"; "300"]] ]} [].

Definition header_only_world : world :=
  World {[ "distances.csv" := [["IntegrationSite#"; "Chromosome"; "Position";
                                "EcoRI UpstreamDist"; "EcoRI DownstreamDist"]] ]} [].

Definition aligned_world : world :=
  World {[ "distances.csv" := [["IntegrationSite#"; "Chromosome"; "Position";
                                "EcoRI UpstreamDist"; "EcoRI DownstreamDist"];
                               ["site1"; "chr1"; "300"; "200"; "N/A"]] ]} [].

Definition aligned_record : record :=
  {[ "IntegrationSite#" := PStr "site1"; "Chromosome" := PStr "chr1";
     "Position" := PStr "300"; "EcoRI_L" := PInt 250; "EcoRI_H" := PInt 190 ]}.

(** ** Vocabulary for the statements about the index and the result rows *)

(** [enzyme_positions[enzyme][chromosome]], when both keys are there. *)
Definition index_lookup (enzyme_positions : index) (enzyme chromosome : string)
    : option (list Z) :=
  od_get enzyme enzyme_positions ≫= od_get chromosome.

(** The positions an enzyme file gives for one enzyme on one chromosome, in
    file order; rows without three fields and positions that are not
    integers contribute nothing. *)
Definition file_positions (rows : list (list string)) (enzyme chromosome : string)
    : list Z :=
  flat_map (λ row, match row with
                   | [e; c; p] =>
                       if decide (e = enzyme ∧ c = chromosome)
                       then option_list (py_int p) else []
                   | _ => []
                   end) rows.

(** The first fields of the rows that have three fields. *)
Definition first_fields (rows : list (list string)) : list string :=
  flat_map (λ row, match row with [a; _; _] => [a] | _ => [] end) rows.

(** The distinct elements of a list, each at its first occurrence. *)
Definition first_seen {A} `{EqDecision A} (l : list A) : list A :=
  foldl (λ seen x, if decide (x ∈ seen) then seen else seen ++ [x]) [] l.

(** The index after a row [enzyme, chromosome, position] whose position
    parsed as [p]. *)
Definition add_position (enzyme_positions : index) (enzyme chromosome : string)
    (p : Z) : index :=
  let ep1 :=
    if od_mem enzyme enzyme_positions then enzyme_positions
    else od_set enzyme [] enzyme_positions in
  let chroms := default [] (od_get enzyme ep1) in
  let chroms1 :=
    if od_mem chromosome chroms then chroms
    else od_set chromosome [] chroms in
  let ps := default [] (od_get chromosome chroms1) in
  od_set enzyme (od_set chromosome (ps ++ [p]) chroms1) ep1.

(** The result rows an integration file gives against an index: one per
    row of three fields whose position is an integer. *)
Definition site_rows (enzyme_positions : index) (rows : list (list string))
    : list (list pyval) :=
  flat_map (λ row, match row with
                   | [site_id; chromosome; position] =>
                       match py_int position with
                       | Some p =>
                           [[PStr site_id; PStr chromosome; PInt p]
                            ++ enzyme_columns enzyme_positions chromosome p]
                       | None => []
                       end
                   | _ => []
                   end) rows.

(** How a position list shows in the index: a pair of keys is created with
    its first position, so an empty list means the keys are not there. *)
Definition encode_positions (ps : list Z) : option (list Z) :=
  if decide (ps = []) then None else Some ps.

(** An enzyme file in which the enzymes alternate, and its index. *)
Definition read_enzyme_positions_order_csv : list (list string) :=
  [["BamHI"; "chr2"; "70"]; ["EcoRI"]; ["EcoRI"; "chr1"; "500"];
   ["BamHI"; "chr1"; "9"]; ["EcoRI"; "chr1"; "100"]].

Definition read_enzyme_positions_order_index : index :=
  [("BamHI", [("chr2", [70]); ("chr1", [9])]); ("EcoRI", [("chr1", [100; 500])])].

(** ** Vocabulary for the statements about the readers of stage 2 *)

(** The offsets a lengths row gives, when both parse. *)
Definition row_offsets (row : gmap string cell) : option (gmap string Z) :=
  l ← row !! "L" ≫= (λ c : cell, c ≫= py_int);
  h ← row !! "H" ≫= (λ c : cell, c ≫= py_int);
  Some {[ "L" := l; "H" := h ]}.

(** The last row of a table that has a given cell in a given column. *)
Definition last_row_with (column : string) (c : cell)
    (rows : list (gmap string cell)) : option (gmap string cell) :=
  last (filter (λ row, row !! column = Some c) rows).



(** The record of the aligned example table when no site is listed in the
    directions. *)
Definition unlisted_record : record :=
  {[ "IntegrationSite#" := PStr "site1"; "Chromosome" := PStr "chr1";
     "Position" := PStr "300"; "EcoRI_L" := PStr "N/A"; "EcoRI_H" := PStr "N/A" ]}.

(** * Properties *)

(** ** The nearest-site locator *)

Section find_closest_facts.

Variable target : Z.

Lemma find_closest_loop_upstream (P : list Z) :
  ∀ u, StronglySorted Z.le P →
    match (find_closest_loop P target u None).1 with
    | Some x =>
        (u = Some x ∧ ∀ y, y ∈ P → ¬ y < target)
        ∨ (x ∈ P ∧ x < target ∧ ∀ y, y ∈ P → y < target → y ≤ x)
    | None => u = None ∧ ∀ y, y ∈ P → ¬ y < target
    end.
Proof.
  induction P as [|pos rest IH]; intros u Hs; simpl.
  - destruct u; [left|]; split; try done; intros y Hy; inversion Hy.
  - apply StronglySorted_inv in Hs as [Hrest Hall].
    rewrite Forall_forall in Hall.
    destruct (Z.ltb_spec pos target) as [Hlt|Hge].
    + specialize (IH (Some pos) Hrest).
      destruct (find_closest_loop rest target (Some pos) None).1 as [x|].
      * right. destruct IH as [[Hx Hno]|(Hin & Hxt & Hmax)].
        -- injection Hx as <-. split; [left|split; [done|]].
           intros y Hy Hyt. apply elem_of_cons in Hy as [->|Hy]; [lia|].
           exfalso. by apply (Hno y).
        -- split; [by right|split; [done|]].
           intros y Hy Hyt. apply elem_of_cons in Hy as [->|Hy].
           ++ by apply Hall.
           ++ by apply Hmax.
      * by destruct IH.
    + destruct (Z.gtb_spec pos target) as [Hgt|Hle]; simpl.
      * assert (∀ y, y ∈ pos :: rest → ¬ y < target) as Hno.
        { intros y Hy. apply elem_of_cons in Hy as [->|Hy]; [lia|].
          specialize (Hall y Hy). lia. }
        destruct u; [left|]; done.
      * specialize (IH u Hrest).
        destruct (find_closest_loop rest target u None).1 as [x|].
        -- destruct IH as [[Hx Hno]|(Hin & Hxt & Hmax)]; [left|right].
           ++ split; [done|]. intros y Hy.
              apply elem_of_cons in Hy as [->|Hy]; [lia|by apply Hno].
           ++ split; [by right|split; [done|]]. intros y Hy Hyt.
              apply elem_of_cons in Hy as [->|Hy]; [lia|by apply Hmax].
        -- destruct IH as [-> Hno]. split; [done|]. intros y Hy.
           apply elem_of_cons in Hy as [->|Hy]; [lia|by apply Hno].
Qed.

(** The downstream half does not even need the list to be sorted to find
    the first element above the target; sortedness makes it the least. *)
Lemma find_closest_loop_downstream (P : list Z) :
  ∀ u, StronglySorted Z.le P →
    least_above P target (find_closest_loop P target u None).2.
Proof.
  induction P as [|pos rest IH]; intros u Hs; simpl.
  - intros y Hy. inversion Hy.
  - apply StronglySorted_inv in Hs as [Hrest Hall].
    rewrite Forall_forall in Hall.
    destruct (Z.ltb_spec pos target) as [Hlt|Hge].
    + specialize (IH (Some pos) Hrest).
      destruct (find_closest_loop rest target (Some pos) None).2 as [x|]; simpl in *.
      * destruct IH as (Hin & Hxt & Hmin). split; [by right|split; [done|]].
        intros y Hy Hyt. apply elem_of_cons in Hy as [->|Hy]; [lia|by apply Hmin].
      * intros y Hy. apply elem_of_cons in Hy as [->|Hy]; [lia|by apply IH].
    + destruct (Z.gtb_spec pos target) as [Hgt|Hle]; simpl.
      * split; [by left|split; [lia|]]. intros y Hy Hyt.
        apply elem_of_cons in Hy as [->|Hy]; [lia|by apply Hall].
      * specialize (IH u Hrest).
        destruct (find_closest_loop rest target u None).2 as [x|]; simpl in *.
        -- destruct IH as (Hin & Hxt & Hmin). split; [by right|split; [done|]].
           intros y Hy Hyt. apply elem_of_cons in Hy as [->|Hy]; [lia|by apply Hmin].
        -- intros y Hy. apply elem_of_cons in Hy as [->|Hy]; [lia|by apply IH].
Qed.

End find_closest_facts.

(** C1.  On an ascending list the locator returns the greatest element
    strictly below the target and the least element strictly above it, each
    replaced by [None] when no such element exists.  An element equal to the
    target counts for neither side: on the empty list and on the list
    [[t]] the answer is [(None, None)], and on a list that contains [t]
    neither component is [t]. *)
Theorem find_closest_correct (P : list Z) (t : Z) :
  Sorted Z.le P →
  greatest_below P t (find_closest P t).1
  ∧ least_above P t (find_closest P t).2
  ∧ find_closest [] t = (None, None)
  ∧ find_closest [t] t = (None, None)
  ∧ (t ∈ P → (find_closest P t).1 ≠ Some t ∧ (find_closest P t).2 ≠ Some t).
Proof.
  intros Hs. apply Sorted_StronglySorted in Hs; [|intros x y z; lia].
  assert (greatest_below P t (find_closest P t).1) as Hup.
  { pose proof (find_closest_loop_upstream t P None Hs) as H.
    unfold find_closest, greatest_below.
    destruct (find_closest_loop P t None None).1 as [x|].
    - by destruct H as [[? _]|H].
    - by destruct H. }
  assert (least_above P t (find_closest P t).2) as Hdown.
  { apply find_closest_loop_downstream, Hs. }
  repeat split; try done.
  - unfold find_closest; simpl. by rewrite Z.ltb_irrefl, Z.gtb_ltb, Z.ltb_irrefl.
  - intros Heq. rewrite Heq in Hup. simpl in Hup. lia.
  - intros Heq. rewrite Heq in Hdown. simpl in Hdown. lia.
Qed.

(** ** The monad and its loops *)

Lemma bind_Ok {A B} (m : M A) (k : A → M B) w a w' :
  m w = (Ok a, w') → bind m k w = k a w'.
Proof. unfold bind. by intros ->. Qed.

Lemma bind_Raise {A B} (m : M A) (k : A → M B) w e w' :
  m w = (Raise e, w') → bind m k w = (Raise e, w').
Proof. unfold bind. by intros ->. Qed.

Lemma bind_inv_Ok {A B} (m : M A) (k : A → M B) w b w2 :
  bind m k w = (Ok b, w2) → ∃ a w1, m w = (Ok a, w1) ∧ k a w1 = (Ok b, w2).
Proof.
  unfold bind. destruct (m w) as [[a|e] w1]; [|done]. intros H. by exists a, w1.
Qed.

Section loops.

Context {S A : Type} (body : S → A → M S).

(** A loop whose body leaves the files alone leaves the files alone. *)
Lemma foldM_files (l : list A) :
  (∀ acc x w, files (body acc x w).2 = files w) →
  ∀ acc w, files (foldM body acc l w).2 = files w.
Proof.
  intros Hbody. induction l as [|x l IH]; intros acc w; simpl; [done|].
  unfold bind. specialize (Hbody acc x w).
  destruct (body acc x w) as [[acc'|e] w1]; simpl in *; [|done].
  by rewrite IH.
Qed.

(** If the body raises on one element whatever the accumulator, the loop
    raises; the exception is one the body can raise. *)
Lemma foldM_raises (Q : exn → Prop) (l : list A) (bad : A) :
  (∀ acc x w e, x ∈ l → (body acc x w).1 = Raise e → Q e) →
  bad ∈ l →
  (∀ acc w, ∃ e, (body acc bad w).1 = Raise e) →
  ∀ acc w, ∃ e, Q e ∧ (foldM body acc l w).1 = Raise e.
Proof.
  intros HQ Hin Hbad. induction l as [|x l IH]; intros acc w.
  - inversion Hin.
  - simpl. unfold bind.
    destruct (body acc x w) as [[acc'|e] w1] eqn:Hx.
    + apply elem_of_cons in Hin as [->|Hin].
      * destruct (Hbad acc w) as [e He]. rewrite Hx in He. done.
      * apply IH; [|done]. intros acc0 x0 w0 e0 Hx0. apply HQ. by right.
    + exists e. split; [|done]. apply (HQ acc x w); [by left|]. by rewrite Hx.
Qed.

Context (keep : A → Prop) `{∀ x, Decision (keep x)} (warn : A → event).

(** Elements the body only warns about can be removed from the list
    without changing what the loop computes. *)
Lemma foldM_filter (l : list A) :
  (∀ acc x w1 w2, (body acc x w1).1 = (body acc x w2).1) →
  (∀ acc x w, ¬ keep x → (body acc x w).1 = Ok acc) →
  ∀ acc w1 w2, (foldM body acc l w1).1 = (foldM body acc (filter keep l) w2).1.
Proof.
  intros Hval Hskip. induction l as [|x l IH]; intros acc w1 w2; [done|].
  destruct (decide (keep x)) as [Hk|Hk].
  - rewrite filter_cons_True by done. simpl. unfold bind.
    specialize (Hval acc x w1 w2).
    destruct (body acc x w1) as [[a1|e1] w1'], (body acc x w2) as [[a2|e2] w2'];
      simpl in Hval; try done.
    injection Hval as <-. apply IH.
  - rewrite filter_cons_False by done. simpl. unfold bind.
    specialize (Hskip acc x w1 Hk).
    destruct (body acc x w1) as [[a1|e1] w1']; simpl in Hskip; [|done].
    injection Hskip as ->. apply IH.
Qed.

(** What a loop that ran to its end has printed: one warning for every
    element that was skipped, in order, and nothing else. *)
Lemma foldM_stdout (l : list A) :
  (∀ acc x w, keep x → stdout (body acc x w).2 = stdout w) →
  (∀ acc x w, ¬ keep x → stdout (body acc x w).2 = stdout w ++ [warn x]) →
  ∀ acc w r w', foldM body acc l w = (Ok r, w') →
    stdout w' = stdout w ++ (warn <$> filter (λ x, ¬ keep x) l).
Proof.
  intros Hkeep Hskip. induction l as [|x l IH]; intros acc w r w' Hrun.
  - simpl in Hrun. injection Hrun as _ <-. by rewrite app_nil_r.
  - simpl in Hrun. apply bind_inv_Ok in Hrun as (acc' & w1 & Hx & Hrun).
    apply IH in Hrun. rewrite Hrun.
    destruct (decide (keep x)) as [Hk|Hk].
    + rewrite filter_cons_False by tauto.
      specialize (Hkeep acc x w Hk). rewrite Hx in Hkeep. simpl in Hkeep.
      by rewrite Hkeep.
    + rewrite filter_cons_True by done.
      specialize (Hskip acc x w Hk). rewrite Hx in Hskip. simpl in Hskip.
      rewrite Hskip, fmap_cons, <- app_assoc. done.
Qed.

End loops.

(** Writing a list of rows appends them to the file, in order. *)
Lemma for_each_writerow {A} (filename : string) (f : A → list string) (l : list A) :
  ∀ w, for_each l (λ x, writerow filename (f x)) w
       = (Ok (),
          World (if l is [] then files w
                 else <[filename := default [] (files w !! filename) ++ (f <$> l)]>
                        (files w))
                (stdout w)).
Proof.
  induction l as [|x l IH]; intros w; simpl.
  - by destruct w.
  - unfold bind, writerow at 1. rewrite IH. simpl. f_equal. f_equal.
    rewrite lookup_insert_eq. simpl.
    destruct l as [|y l]; [done|].
    by rewrite insert_insert_eq, <- app_assoc.
Qed.

(** ** Stage 1: reading, skipping, aborting *)

Lemma int_str_run (s : string) (w : world) :
  int_str s w = (match py_int s with Some z => Ok z | None => Raise ValueError end, w).
Proof. unfold int_str. by destruct (py_int s). Qed.

(** Both reading loops of stage 1 have a body of the same shape: a row of
    three fields is processed without printing, any other row is warned
    about and leaves the accumulator as it was.  The only exception either
    body can raise is the [ValueError] of [int]. *)
Lemma read_enzyme_positions_row_three acc enzyme chromosome position w :
  ∃ r, read_enzyme_positions_row acc [enzyme; chromosome; position] w = (r, w)
       ∧ (∀ w2, (read_enzyme_positions_row acc [enzyme; chromosome; position] w2).1 = r)
       ∧ match py_int position with
         | Some _ => ∃ acc', r = Ok acc'
         | None => r = Raise ValueError
         end.
Proof.
  simpl. unfold bind. setoid_rewrite int_str_run.
  destruct (py_int position) as [z|]; eauto.
Qed.

Lemma read_enzyme_positions_row_skip acc row w :
  length row ≠ 3%nat →
  read_enzyme_positions_row acc row w
  = (Ok acc, World (files w) (stdout w ++ [WarnEnzymeRow row])).
Proof.
  intros Hlen. by destruct row as [|? [|? [|? [|? ?]]]].
Qed.

Lemma calculate_distances_row_three ep acc site_id chromosome position w :
  ∃ r, calculate_distances_row ep acc [site_id; chromosome; position] w = (r, w)
       ∧ (∀ w2, (calculate_distances_row ep acc [site_id; chromosome; position] w2).1 = r)
       ∧ match py_int position with
         | Some _ => ∃ acc', r = Ok acc'
         | None => r = Raise ValueError
         end.
Proof.
  simpl. unfold bind. setoid_rewrite int_str_run.
  destruct (py_int position) as [z|]; eauto.
Qed.

Lemma calculate_distances_row_skip ep acc row w :
  length row ≠ 3%nat →
  calculate_distances_row ep acc row w
  = (Ok acc, World (files w) (stdout w ++ [WarnIntegrationRow row])).
Proof.
  intros Hlen. by destruct row as [|? [|? [|? [|? ?]]]].
Qed.

Lemma three_fields (row : list string) :
  length row = 3%nat → ∃ a b c, row = [a; b; c].
Proof. destruct row as [|a [|b [|c [|? ?]]]]; try done. eauto. Qed.

(** The four facts the loop lemmas ask of a body, for both bodies. *)
Section stage1_bodies.

Context {S : Type} (body : S → list string → M S) (warn : list string → event).

Hypothesis body_three : ∀ acc a b c w,
  ∃ r, body acc [a; b; c] w = (r, w)
       ∧ (∀ w2, (body acc [a; b; c] w2).1 = r)
       ∧ match py_int c with
         | Some _ => ∃ acc', r = Ok acc'
         | None => r = Raise ValueError
         end.

Hypothesis body_skip : ∀ acc row w,
  length row ≠ 3%nat →
  body acc row w = (Ok acc, World (files w) (stdout w ++ [warn row])).

Lemma body_files acc row w : files (body acc row w).2 = files w.
Proof.
  destruct (decide (length row = 3%nat)) as [H3|H3].
  - apply three_fields in H3 as (a & b & c & ->).
    destruct (body_three acc a b c w) as (r & -> & _). done.
  - by rewrite body_skip.
Qed.

Lemma body_value acc row w1 w2 : (body acc row w1).1 = (body acc row w2).1.
Proof.
  destruct (decide (length row = 3%nat)) as [H3|H3].
  - apply three_fields in H3 as (a & b & c & ->).
    destruct (body_three acc a b c w1) as (r & _ & Hr & _).
    by rewrite !Hr.
  - by rewrite !body_skip.
Qed.

Lemma body_exn acc row w e : (body acc row w).1 = Raise e → e = ValueError.
Proof.
  destruct (decide (length row = 3%nat)) as [H3|H3].
  - apply three_fields in H3 as (a & b & c & ->).
    destruct (body_three acc a b c w) as (r & -> & _ & Hr). simpl.
    destruct (py_int c); [destruct Hr as [? ->]; done|]. rewrite Hr. congruence.
  - by rewrite body_skip.
Qed.

Lemma body_stdout_three acc row w :
  length row = 3%nat → stdout (body acc row w).2 = stdout w.
Proof.
  intros H3. apply three_fields in H3 as (a & b & c & ->).
  destruct (body_three acc a b c w) as (r & -> & _). done.
Qed.

(** The loop over a file: its value does not depend on the malformed rows
    nor on what was printed before; it never touches a file; a row of
    three fields whose last field is not an integer makes it raise
    [ValueError]; a run that ends has warned about every malformed row. *)
Lemma stage1_loop_filter rows acc w1 w2 :
  (foldM body acc rows w1).1
  = (foldM body acc (filter (λ r, length r = 3%nat) rows) w2).1.
Proof.
  apply foldM_filter.
  - apply body_value.
  - intros a row w H3. by rewrite body_skip.
Qed.

Lemma stage1_loop_files rows acc w : files (foldM body acc rows w).2 = files w.
Proof. apply foldM_files, body_files. Qed.

Lemma stage1_loop_raises rows a b c acc w :
  [a; b; c] ∈ rows → py_int c = None →
  (foldM body acc rows w).1 = Raise ValueError.
Proof.
  intros Hin Hc.
  destruct (foldM_raises body (λ e, e = ValueError) rows [a; b; c]) with acc w
    as (e & -> & He); try done.
  - intros acc' row w' e _. apply body_exn.
  - intros acc' w'. exists ValueError.
    destruct (body_three acc' a b c w') as (r & -> & _ & Hr).
    by rewrite Hc in Hr.
Qed.

Lemma stage1_loop_stdout rows acc w r w' :
  foldM body acc rows w = (Ok r, w') →
  stdout w' = stdout w ++ (warn <$> filter (λ r, length r ≠ 3%nat) rows).
Proof.
  apply (foldM_stdout body (λ r, length r = 3%nat) warn).
  - intros. by apply body_stdout_three.
  - intros a row w0 H3. by rewrite body_skip.
Qed.

End stage1_bodies.

(** [write_results] on a non-empty result list: the file holds the header
    and then the rows, whatever it held before. *)
Lemma write_results_nonempty (row_example : list pyval) (rest : list (list pyval))
    (filename : string) (w : world) :
  write_results (row_example :: rest) filename w
  = (Ok (),
     World (<[filename := results_header (every_third (drop 3 row_example))
                          :: map (map csv_field) (row_example :: rest)]> (files w))
           (stdout w ++ [InfoWritten filename])).
Proof.
  unfold write_results.
  unfold bind at 1. unfold open_write at 1.
  unfold bind at 1. unfold writerow at 1. simpl files. simpl stdout.
  unfold bind at 1.
  rewrite (for_each_writerow filename (map csv_field) (row_example :: rest)).
  unfold print. simpl. f_equal. f_equal.
  rewrite !lookup_insert_eq. simpl. by rewrite !insert_insert_eq.
Qed.

Lemma write_results_run (results : list (list pyval)) (filename : string) (w : world) :
  write_results results filename w
  = (Ok (),
     World (if results is [] then files w
            else <[filename := results_table results]> (files w))
           (stdout w ++ [if results is [] then InfoNoResults
                         else InfoWritten filename])).
Proof.
  destruct results as [|row_example rest]; [done|].
  apply write_results_nonempty.
Qed.

(** The [calc-distances] branch of [main], once both input files exist, in
    terms of its two reading loops. *)
Lemma main_calc_distances_run ef if_ out E I w :
  files w !! ef = Some E → files w !! if_ = Some I →
  main (CalcDistances ef if_ out) w
  = match foldM read_enzyme_positions_row [] E w with
    | (Ok ep, w1) =>
        match foldM (calculate_distances_row (sort_positions ep)) [] I w1 with
        | (Ok results, w2) => write_results results out w2
        | (Raise e, w2) => (Raise e, w2)
        end
    | (Raise e, w1) => (Raise e, w1)
    end.
Proof.
  intros HE HI. simpl. unfold read_enzyme_positions, calculate_distances.
  unfold bind at 1. unfold bind at 1. unfold open_read at 1. rewrite HE.
  unfold bind at 1.
  pose proof (stage1_loop_files read_enzyme_positions_row WarnEnzymeRow
                read_enzyme_positions_row_three read_enzyme_positions_row_skip
                E [] w) as Hfiles.
  destruct (foldM read_enzyme_positions_row [] E w) as [[ep|e] w1]; [|done].
  simpl in Hfiles. unfold ret at 1.
  unfold bind at 1. unfold bind at 1. unfold open_read at 1.
  rewrite Hfiles, HI. done.
Qed.

Lemma read_enzyme_positions_files f w : files (read_enzyme_positions f w).2 = files w.
Proof.
  unfold read_enzyme_positions, bind, open_read.
  destruct (files w !! f) as [rows|]; [|done].
  pose proof (stage1_loop_files read_enzyme_positions_row WarnEnzymeRow
                read_enzyme_positions_row_three read_enzyme_positions_row_skip
                rows [] w) as Hfiles.
  by destruct (foldM read_enzyme_positions_row [] rows w) as [[ep|e] w1].
Qed.

Lemma calculate_distances_files ep f w : files (calculate_distances ep f w).2 = files w.
Proof.
  unfold calculate_distances, bind, open_read.
  destruct (files w !! f) as [rows|]; [|done].
  apply (stage1_loop_files (calculate_distances_row ep) WarnIntegrationRow
           (calculate_distances_row_three ep) (calculate_distances_row_skip ep)).
Qed.

(** C6.  With an empty result list [write_results] prints its "No results
    to write." message, opens no file and returns normally; a
    [calc-distances] run whose distance calculation produced no row
    therefore ends normally with every file as it was before the run. *)
Theorem write_results_empty (ef if_ out : string) (ep : index) (w w1 w2 : world) :
  read_enzyme_positions ef w = (Ok ep, w1) →
  calculate_distances ep if_ w1 = (Ok [], w2) →
  write_results [] out w2 = (Ok (), World (files w2) (stdout w2 ++ [InfoNoResults]))
  ∧ main (CalcDistances ef if_ out) w
    = (Ok (), World (files w) (stdout w2 ++ [InfoNoResults])).
Proof.
  intros Hread Hcalc. split; [done|].
  simpl. rewrite (bind_Ok _ _ _ _ _ Hread), (bind_Ok _ _ _ _ _ Hcalc).
  unfold write_results, print. f_equal. f_equal.
  pose proof (calculate_distances_files ep if_ w1) as H2.
  pose proof (read_enzyme_positions_files ef w) as H1.
  rewrite Hcalc in H2. rewrite Hread in H1. simpl in *. congruence.
Qed.

(** C7.  Rows whose number of fields is not three change nothing but
    standard output: a [calc-distances] run on the two input files ends the
    same way (normally, or with the same exception) and leaves the same
    output file as a run on the same files with those rows removed; when the
    run ends normally it has printed one warning per removed row, and
    otherwise exactly what the run on the cleaned files prints. *)
Theorem malformed_rows_do_not_matter (ef if_ out : string)
    (E I : list (list string)) (w : world) :
  files w !! ef = Some E → files w !! if_ = Some I → out ≠ ef → out ≠ if_ →
  let cleaned :=
    World (<[ef := filter (λ r, length r = 3%nat) E]>
             (<[if_ := filter (λ r, length r = 3%nat) I]> (files w)))
          (stdout w) in
  let run := main (CalcDistances ef if_ out) w in
  let run' := main (CalcDistances ef if_ out) cleaned in
  run.1 = run'.1
  ∧ files run.2 !! out = files run'.2 !! out
  ∧ (run.1 = Ok () →
     ∃ info, stdout run'.2 = stdout w ++ [info]
             ∧ stdout run.2
               = stdout w
                 ++ (WarnEnzymeRow <$> filter (λ r, length r ≠ 3%nat) E)
                 ++ (WarnIntegrationRow <$> filter (λ r, length r ≠ 3%nat) I)
                 ++ [info]).
Proof.
  intros HE HI Hoe Hoi cleaned run run'.
  set (three := λ r : list string, length r = 3%nat).
  assert (files cleaned !! ef = Some (filter three E)) as HE'.
  { simpl. apply lookup_insert_eq. }
  assert (files cleaned !! if_ = Some (filter three I)) as HI'.
  { simpl. destruct (decide (ef = if_)) as [<-|Hne].
    - rewrite lookup_insert_eq. rewrite HE in HI. injection HI as ->. done.
    - by rewrite lookup_insert_ne, lookup_insert_eq. }
  assert (files cleaned !! out = files w !! out) as Hout.
  { simpl. by rewrite !lookup_insert_ne. }
  assert (∀ l : list (list string),
            filter (λ r, length r ≠ 3%nat) (filter three l) = []) as Hnone.
  { intros l. induction l as [|r l IH]; [done|].
    destruct (decide (three r)) as [Hr|Hr].
    - rewrite (filter_cons_True three) by done. by rewrite filter_cons_False by tauto.
    - by rewrite (filter_cons_False three) by done. }
  subst run run'.
  rewrite (main_calc_distances_run ef if_ out E I w HE HI).
  rewrite (main_calc_distances_run ef if_ out _ _ cleaned HE' HI').
  pose proof (stage1_loop_filter read_enzyme_positions_row WarnEnzymeRow
                read_enzyme_positions_row_three read_enzyme_positions_row_skip
                E [] w cleaned) as Hv1.
  pose proof (stage1_loop_files read_enzyme_positions_row WarnEnzymeRow
                read_enzyme_positions_row_three read_enzyme_positions_row_skip
                E [] w) as Hf1.
  pose proof (stage1_loop_files read_enzyme_positions_row WarnEnzymeRow
                read_enzyme_positions_row_three read_enzyme_positions_row_skip
                (filter three E) [] cleaned) as Hf1'.
  pose proof (stage1_loop_stdout read_enzyme_positions_row WarnEnzymeRow
                read_enzyme_positions_row_three read_enzyme_positions_row_skip
                E [] w) as Hs1.
  pose proof (stage1_loop_stdout read_enzyme_positions_row WarnEnzymeRow
                read_enzyme_positions_row_three read_enzyme_positions_row_skip
                (filter three E) [] cleaned) as Hs1'.
  fold three in Hv1.
  destruct (foldM read_enzyme_positions_row [] E w) as [[ep|e] w1],
           (foldM read_enzyme_positions_row [] (filter three E) cleaned)
             as [[ep'|e'] w1']; simpl in Hv1, Hf1; simpl snd in Hf1'; try done.
  2:{ injection Hv1 as ->. simpl fst; simpl snd. split; [done|]. split; [|done].
      by rewrite Hf1, Hf1', Hout. }
  injection Hv1 as <-.
  specialize (Hs1 _ _ eq_refl). specialize (Hs1' _ _ eq_refl).
  rewrite Hnone in Hs1'. simpl in Hs1'. rewrite app_nil_r in Hs1'.
  set (body2 := calculate_distances_row (sort_positions ep)).
  pose proof (stage1_loop_filter body2 WarnIntegrationRow
                (calculate_distances_row_three _) (calculate_distances_row_skip _)
                I [] w1 w1') as Hv2.
  pose proof (stage1_loop_files body2 WarnIntegrationRow
                (calculate_distances_row_three _) (calculate_distances_row_skip _)
                I [] w1) as Hf2.
  pose proof (stage1_loop_files body2 WarnIntegrationRow
                (calculate_distances_row_three _) (calculate_distances_row_skip _)
                (filter three I) [] w1') as Hf2'.
  pose proof (stage1_loop_stdout body2 WarnIntegrationRow
                (calculate_distances_row_three _) (calculate_distances_row_skip _)
                I [] w1) as Hs2.
  pose proof (stage1_loop_stdout body2 WarnIntegrationRow
                (calculate_distances_row_three _) (calculate_distances_row_skip _)
                (filter three I) [] w1') as Hs2'.
  fold three in Hv2.
  destruct (foldM body2 [] I w1) as [[results|e] w2],
           (foldM body2 [] (filter three I) w1') as [[results'|e'] w2'];
    simpl in Hv2, Hf2, Hf2'; try done.
  2:{ injection Hv2 as ->. simpl fst; simpl snd. split; [done|]. split; [|done].
      by rewrite Hf2, Hf2', Hf1, Hf1', Hout. }
  injection Hv2 as <-.
  specialize (Hs2 _ _ eq_refl). specialize (Hs2' _ _ eq_refl).
  rewrite Hnone in Hs2'. simpl in Hs2'. rewrite app_nil_r in Hs2'.
  rewrite !write_results_run. simpl fst; simpl snd; simpl files; simpl stdout.
  split; [done|]. split.
  - destruct results; [by rewrite Hf2, Hf2', Hf1, Hf1', Hout|].
    by rewrite !lookup_insert_eq.
  - intros _. eexists. split.
    + rewrite Hs2', Hs1'. simpl. done.
    + rewrite Hs2, Hs1. by rewrite <- !app_assoc.
Qed.

(** Which columns a [DictReader] row has: those of the header, whatever
    the length of the row. *)
Lemma foldl_insert_is_Some {V} (kvs : list (string * V)) (m : gmap string V) (k : string) :
  is_Some (foldl (λ d kv, <[kv.1 := kv.2]> d) m kvs !! k)
  ↔ is_Some (m !! k) ∨ k ∈ kvs.*1.
Proof.
  revert m. induction kvs as [|[k0 v0] kvs IH]; intros m; simpl.
  - rewrite elem_of_nil. tauto.
  - rewrite IH, elem_of_cons. simpl.
    destruct (decide (k = k0)) as [->|Hne].
    + rewrite lookup_insert_eq. split; [intros _; right; by left|].
      intros _. left. by eexists.
    + rewrite lookup_insert_ne by done. tauto.
Qed.

Lemma dict_of_row_is_Some (fieldnames row : list string) (k : string) :
  is_Some (dict_of_row fieldnames row !! k) ↔ k ∈ fieldnames.
Proof.
  unfold dict_of_row. rewrite foldl_insert_is_Some, lookup_empty.
  rewrite fst_zip.
  - split; [|by right]. intros [[? ?]|?]; done.
  - rewrite length_app, length_fmap, length_replicate. lia.
Qed.

Lemma DictReader_is_Some (fieldnames : list string) (data : list (list string))
    (row : gmap string cell) (k : string) :
  row ∈ DictReader (fieldnames :: data) → is_Some (row !! k) ↔ k ∈ fieldnames.
Proof.
  simpl. intros (r & -> & _)%list_elem_of_fmap. apply dict_of_row_is_Some.
Qed.

Lemma read_fragment_lengths_row_world acc row w :
  (read_fragment_lengths_row acc row w).2 = w.
Proof.
  unfold read_fragment_lengths_row, bind, getitem, int_cell, int_str, ret, raise.
  repeat (case_match; simplify_eq/=; try done).
Qed.

(** A lengths row that has the three keys can only fail in [int]. *)
Lemma read_fragment_lengths_row_exn acc (row : gmap string cell) w e :
  is_Some (row !! "Name") → is_Some (row !! "L") → is_Some (row !! "H") →
  (read_fragment_lengths_row acc row w).1 = Raise e →
  e = ValueError ∨ e = TypeError.
Proof.
  intros [n Hn] [l Hl] [h Hh].
  unfold read_fragment_lengths_row, bind, getitem. rewrite Hn, Hl, Hh.
  unfold ret, raise, int_cell, int_str, raise, ret.
  repeat (case_match; simplify_eq/=; try done); intros; simplify_eq; tauto.
Qed.

(** A lengths row whose [L] or [H] cell is a string that [int] refuses
    raises, whatever else the row holds. *)
Lemma read_fragment_lengths_row_bad acc (row : gmap string cell)
    (column v : string) w :
  column ∈ ["L"; "H"] →
  row !! column = Some (Some v) →
  py_int v = None →
  ∃ e, (read_fragment_lengths_row acc row w).1 = Raise e.
Proof.
  intros Hcol Hv Hbad.
  unfold read_fragment_lengths_row, bind, getitem.
  destruct (row !! "Name") as [n|]; [|by eexists].
  unfold ret at 1.
  apply elem_of_cons in Hcol as [->|Hcol].
  - rewrite Hv. unfold ret at 1, int_cell, int_str. rewrite Hbad. by eexists.
  - apply list_elem_of_singleton in Hcol as ->.
    destruct (row !! "L") as [l|]; [|by eexists].
    unfold ret at 1.
    destruct (int_cell l w) as [[zl|e] w1] eqn:Hl; [|by eexists].
    rewrite Hv. unfold ret at 1, int_cell, int_str. rewrite Hbad. by eexists.
Qed.

Lemma read_fragment_lengths_loop_world rs acc w :
  (foldM read_fragment_lengths_row acc rs w).2 = w.
Proof.
  revert acc. induction rs as [|r rs IH]; intros acc; [done|]. simpl. unfold bind.
  pose proof (read_fragment_lengths_row_world acc r w) as Hr.
  destruct (read_fragment_lengths_row acc r w) as [[acc'|e'] w1];
    simpl in Hr; subst w1; [apply IH|done].
Qed.

(** C8.  A row of three fields whose position is a string that [int]
    refuses is not skipped: [read_enzyme_positions] and
    [calculate_distances] raise [ValueError] on a file that contains one,
    wherever it stands in the file, and a [calc-distances] run on such a
    file ends with that exception without writing any file.  The same holds
    for the offsets, under any header: a data row of the lengths file whose
    [L] or [H] cell is a string that [int] refuses makes
    [read_fragment_lengths], and with it the [finalize-distances] run, end
    with an exception and the files untouched; when the header has the
    columns [Name], [L] and [H] it is an exception of [int] ([ValueError],
    or [TypeError] if an earlier row was too short to have the cell). *)
Theorem non_integer_field_aborts (f : string) (rows : list (list string))
    (a b c : string) (w : world) :
  files w !! f = Some rows →
  [a; b; c] ∈ rows →
  py_int c = None →
  (∃ w', read_enzyme_positions f w = (Raise ValueError, w') ∧ files w' = files w)
  ∧ (∀ ep, ∃ w', calculate_distances ep f w = (Raise ValueError, w')
                 ∧ files w' = files w)
  ∧ (∀ if_ out, ∃ w', main (CalcDistances f if_ out) w = (Raise ValueError, w')
                      ∧ files w' = files w)
  ∧ (∀ ef out ep w0, read_enzyme_positions ef w0 = (Ok ep, w) →
       ∃ w', main (CalcDistances ef f out) w0 = (Raise ValueError, w')
             ∧ files w' = files w0)
  ∧ (∀ lf fieldnames data r column v wl,
       files wl !! lf = Some (fieldnames :: data) →
       r ∈ data → r ≠ [] →
       column ∈ ["L"; "H"] →
       dict_of_row fieldnames r !! column = Some (Some v) →
       py_int v = None →
       ∃ e, read_fragment_lengths lf wl = (Raise e, wl)
            ∧ (∀ df sf out, main (FinalizeDistances lf df sf out) wl = (Raise e, wl))
            ∧ ("Name" ∈ fieldnames → "L" ∈ fieldnames → "H" ∈ fieldnames →
               e = ValueError ∨ e = TypeError)).
Proof.
  intros Hf Hin Hc.
  assert (∃ w', read_enzyme_positions f w = (Raise ValueError, w')
                ∧ files w' = files w) as Hread.
  { pose proof (read_enzyme_positions_files f w) as Hfiles.
    unfold read_enzyme_positions, bind, open_read in *. rewrite Hf in *.
    pose proof (stage1_loop_raises read_enzyme_positions_row WarnEnzymeRow
                  read_enzyme_positions_row_three read_enzyme_positions_row_skip
                  rows a b c [] w Hin Hc) as Hr.
    destruct (foldM read_enzyme_positions_row [] rows w) as [[ep|e] w1];
      simpl in Hr; [done|].
    injection Hr as ->. by exists w1. }
  assert (∀ ep, ∃ w', calculate_distances ep f w = (Raise ValueError, w')
                      ∧ files w' = files w) as Hcalc.
  { intros ep. pose proof (calculate_distances_files ep f w) as Hfiles.
    unfold calculate_distances, bind, open_read in *. rewrite Hf in *.
    pose proof (stage1_loop_raises (calculate_distances_row ep) WarnIntegrationRow
                  (calculate_distances_row_three ep) (calculate_distances_row_skip ep)
                  rows a b c [] w Hin Hc) as Hr.
    destruct (foldM (calculate_distances_row ep) [] rows w) as [[res|e] w1];
      simpl in Hr; [done|].
    injection Hr as ->. by exists w1. }
  split; [done|]. split; [done|]. split; [|split].
  - intros if_ out. destruct Hread as (w' & Hr & Hw'). exists w'. split; [|done].
    simpl. by rewrite (bind_Raise _ _ _ _ _ Hr).
  - intros ef out ep w0 Hep. destruct (Hcalc ep) as (w' & Hr & Hw').
    exists w'. split.
    + simpl. by rewrite (bind_Ok _ _ _ _ _ Hep), (bind_Raise _ _ _ _ _ Hr).
    + rewrite Hw'. pose proof (read_enzyme_positions_files ef w0) as H0.
      by rewrite Hep in H0.
  - intros lf fieldnames data r column v wl Hlf Hrow Hne Hcol Hv Hbad.
    assert (dict_of_row fieldnames r ∈ DictReader (fieldnames :: data)) as Hdr.
    { simpl. apply list_elem_of_fmap. exists r. split; [done|].
      by apply list_elem_of_filter. }
    destruct (foldM_raises read_fragment_lengths_row (λ _, True)
                (DictReader (fieldnames :: data)) (dict_of_row fieldnames r))
      with (@nil (cell * gmap string Z)) wl as (e & _ & He); [done|done| |].
    { intros acc w'. by eapply read_fragment_lengths_row_bad. }
    pose proof (read_fragment_lengths_loop_world
                  (DictReader (fieldnames :: data)) [] wl) as Hw.
    assert (read_fragment_lengths lf wl = (Raise e, wl)) as Hrun.
    { unfold read_fragment_lengths, bind, open_read. rewrite Hlf.
      destruct (foldM read_fragment_lengths_row [] _ wl) as [res w1].
      simpl in *. by subst. }
    exists e. split; [done|]. split.
    + intros df sf out. simpl. by rewrite (bind_Raise _ _ _ _ _ Hrun).
    + intros HN HL HH.
      destruct (foldM_raises read_fragment_lengths_row
                  (λ e, e = ValueError ∨ e = TypeError)
                  (DictReader (fieldnames :: data)) (dict_of_row fieldnames r))
        with (@nil (cell * gmap string Z)) wl as (e' & HQ & He'); [|done| |].
      * intros acc x w' e0 Hx.
        apply read_fragment_lengths_row_exn;
          by apply (DictReader_is_Some fieldnames data x).
      * intros acc w'. by eapply read_fragment_lengths_row_bad.
      * rewrite He in He'. by injection He' as ->.
Qed.

(** ** Stage 2: one offset of one enzyme for one site *)

Lemma final_distance_world row sd enzyme offsets dt w :
  (final_distance row sd enzyme offsets dt w).2 = w.
Proof.
  unfold final_distance, bind, getitem, int_cell, int_str, ret, raise.
  repeat (case_match; simplify_eq/=; try done).
Qed.

Lemma final_distance_value row sd enzyme offsets dt w v w' :
  final_distance row sd enzyme offsets dt w = (Ok v, w') → distance_value v.
Proof.
  unfold final_distance, bind, getitem, int_cell, int_str, ret, raise, distance_value.
  repeat (case_match; simplify_eq/=; try done); intros; simplify_eq; eauto.
Qed.

Lemma dist_key_nonempty enzyme user_direction key :
  dist_key enzyme user_direction = Some key → key ≠ "".
Proof.
  unfold dist_key. repeat case_decide; intros Hk; simplify_eq;
    destruct (py_str (of_cell enzyme)); done.
Qed.

(** ** Stage 2: the loops of [calculate_final_distances] *)

Lemma final_distance_Ok row sd enzyme offsets dt w v w' :
  final_distance row sd enzyme offsets dt w = (Ok v, w') →
  w' = w ∧ final_distance row sd enzyme offsets dt w = (Ok v, w).
Proof.
  intros H. pose proof (final_distance_world row sd enzyme offsets dt w) as Hw.
  rewrite H in Hw. simpl in Hw. by subst.
Qed.

(** ** The interpreter's [list(set)] *)

Lemma elem_of_py_list_of_set (X : gset string) (k : string) :
  k ∈ py_list_of_set X ↔ k ∈ X.
Proof. by rewrite py_list_of_set_perm, elem_of_elements. Qed.

Lemma NoDup_py_list_of_set (X : gset string) : NoDup (py_list_of_set X).
Proof. rewrite py_list_of_set_perm. apply NoDup_elements. Qed.


Lemma calculate_final_distances_enzyme_run row sd new_row fns item w new_row' fns' w' :
  calculate_final_distances_enzyme row sd (new_row, fns) item w
  = (Ok (new_row', fns'), w') →
  w' = w
  ∧ ∃ vL vH,
      final_distance row sd item.1 item.2 "L" w = (Ok vL, w)
      ∧ final_distance row sd item.1 item.2 "H" w = (Ok vH, w)
      ∧ new_row' = assign_all new_row [(direction_key item.1 "L", vL);
                                       (direction_key item.1 "H", vH)]
      ∧ fns' = {[direction_key item.1 "H"]} ∪ ({[direction_key item.1 "L"]} ∪ fns).
Proof.
  unfold calculate_final_distances_enzyme. simpl. intros H.
  apply bind_inv_Ok in H as ([nr1 f1] & w1 & H1 & H).
  apply bind_inv_Ok in H1 as (vL & w1' & HL & H1).
  apply final_distance_Ok in HL as [-> HL].
  unfold ret in H1. injection H1 as <- <- <-.
  apply bind_inv_Ok in H as ([nr2 f2] & w2 & H2 & H).
  apply bind_inv_Ok in H2 as (vH & w2' & HH & H2).
  apply final_distance_Ok in HH as [-> HH].
  unfold ret in H2, H. injection H2 as <- <- <-. injection H as <- <- <-.
  split; [done|]. by exists vL, vH.
Qed.

(** The loop over the enzymes of the Spec, for one row: the record receives
    one assignment per (enzyme, offset name) pair, in order, each storing
    the result of [final_distance]; the field-name set receives the keys. *)
Lemma calculate_final_distances_enzymes_run row sd (lengths : lengths_t) :
  ∀ new_row fns w new_row' fns' w',
    foldM (calculate_final_distances_enzyme row sd) (new_row, fns) lengths w
    = (Ok (new_row', fns'), w') →
    w' = w
    ∧ ∃ kvs,
        Forall2 (λ p kv, kv.1 = direction_key p.1.1 p.2
                         ∧ final_distance row sd p.1.1 p.1.2 p.2 w = (Ok kv.2, w))
                (spec_pairs lengths) kvs
        ∧ new_row' = assign_all new_row kvs
        ∧ fns' = list_to_set kvs.*1 ∪ fns.
Proof.
  induction lengths as [|item lengths IH]; intros new_row fns w new_row' fns' w' H.
  - simpl in H. unfold ret in H. injection H as <- <- <-.
    split; [done|]. exists []. split; [constructor|]. split; [done|].
    simpl. by rewrite (left_id_L ∅ (∪)).
  - simpl in H. apply bind_inv_Ok in H as ([nr1 f1] & w1 & Hitem & H).
    apply calculate_final_distances_enzyme_run in Hitem
      as (-> & vL & vH & HL & HH & -> & ->).
    apply IH in H as (-> & kvs & Hkvs & -> & ->).
    split; [done|].
    exists ((direction_key item.1 "L", vL) :: (direction_key item.1 "H", vH) :: kvs).
    split; [|split].
    + simpl. repeat constructor; done.
    + done.
    + simpl. apply set_eq. intros x. set_unfold. tauto.
Qed.

Lemma assign_all_cons (d : record) k v kvs :
  assign_all d ((k, v) :: kvs) = assign_all (<[k := v]> d) kvs.
Proof. done. Qed.

Lemma assign_all_lookup_notin (d : record) kvs k :
  k ∉ kvs.*1 → assign_all d kvs !! k = d !! k.
Proof.
  revert d. induction kvs as [|[k0 v0] kvs IH]; intros d Hk; [done|].
  rewrite fmap_cons in Hk. apply not_elem_of_cons in Hk as [Hne Hk].
  rewrite assign_all_cons, IH by done. by rewrite lookup_insert_ne.
Qed.

(** After the assignments every assigned key is present, with one of the
    assigned values. *)
Lemma assign_all_lookup_in (d : record) kvs k :
  k ∈ kvs.*1 → ∃ v, assign_all d kvs !! k = Some v ∧ (k, v) ∈ kvs.
Proof.
  revert d. induction kvs as [|[k0 v0] kvs IH]; intros d Hk.
  - inversion Hk.
  - destruct (decide (k ∈ kvs.*1)) as [Hin|Hnotin].
    + destruct (IH (<[k0 := v0]> d) Hin) as (v & Hv & Hkv).
      exists v. split; [done|]. by right.
    + simpl in Hk. apply elem_of_cons in Hk as [->|Hk]; [|done].
      exists v0. split; [|by left].
      rewrite assign_all_cons, assign_all_lookup_notin by done.
      apply lookup_insert_eq.
Qed.

(** When no key is assigned twice, each key holds its own value. *)
Lemma assign_all_lookup_NoDup (d : record) kvs k v :
  NoDup kvs.*1 → (k, v) ∈ kvs → assign_all d kvs !! k = Some v.
Proof.
  revert d. induction kvs as [|[k0 v0] kvs IH]; intros d Hnd Hkv.
  - inversion Hkv.
  - simpl in Hnd. apply NoDup_cons in Hnd as [Hk0 Hnd].
    apply elem_of_cons in Hkv as [Heq|Hkv].
    + injection Heq as -> ->.
      rewrite assign_all_cons, assign_all_lookup_notin by done.
      apply lookup_insert_eq.
    + by apply (IH (<[k0 := v0]> d)).
Qed.

Lemma calculate_final_distances_row_run directions lengths recs fns row w recs' fns' w' :
  calculate_final_distances_row directions lengths (recs, fns) row w
  = (Ok (recs', fns'), w') →
  w' = w
  ∧ ∃ new_row, recs' = recs ++ [new_row]
               ∧ row_record directions lengths w row new_row
               ∧ fns' = list_to_set ((λ p, direction_key p.1.1 p.2) <$> spec_pairs lengths)
                        ∪ fns.
Proof.
  unfold calculate_final_distances_row. intros H.
  apply bind_inv_Ok in H as (site_id & w1 & Hs & H).
  apply bind_inv_Ok in H as (chromosome & w2 & Hc & H).
  apply bind_inv_Ok in H as (position & w3 & Hp & H).
  unfold getitem in Hs, Hc, Hp.
  destruct (row !! "IntegrationSite#") as [s|] eqn:Es; [|done].
  destruct (row !! "Chromosome") as [c|] eqn:Ec; [|done].
  destruct (row !! "Position") as [p|] eqn:Ep; [|done].
  unfold ret in Hs, Hc, Hp.
  injection Hs as <- <-. injection Hc as <- <-. injection Hp as <- <-.
  apply bind_inv_Ok in H as ([nr f] & w4 & Hfold & H).
  unfold ret in H. injection H as <- <- <-.
  apply calculate_final_distances_enzymes_run in Hfold as (-> & kvs & Hkvs & -> & ->).
  split; [done|]. eexists. split; [done|]. split.
  - by exists s, c, p, kvs.
  - f_equal. f_equal. clear -Hkvs.
    induction Hkvs as [|p kv ps kvs [Hk _] _ IH]; [done|].
    rewrite !fmap_cons. by f_equal.
Qed.

Lemma calculate_final_distances_rows_run directions lengths rows :
  ∀ recs fns w recs' fns' w',
    foldM (calculate_final_distances_row directions lengths) (recs, fns) rows w
    = (Ok (recs', fns'), w') →
    w' = w
    ∧ ∃ new_rows,
        recs' = recs ++ new_rows
        ∧ Forall2 (row_record directions lengths w) rows new_rows
        ∧ fns' = (if rows is [] then ∅
                  else list_to_set ((λ p, direction_key p.1.1 p.2)
                                      <$> spec_pairs lengths))
                 ∪ fns.
Proof.
  induction rows as [|row rows IH]; intros recs fns w recs' fns' w' H.
  - simpl in H. unfold ret in H. injection H as <- <- <-.
    split; [done|]. exists []. rewrite app_nil_r. split; [done|].
    split; [constructor|]. by rewrite (left_id_L ∅ (∪)).
  - simpl in H. apply bind_inv_Ok in H as ([recs1 fns1] & w1 & Hrow & H).
    apply calculate_final_distances_row_run in Hrow as (-> & new_row & -> & Hrec & ->).
    apply IH in H as (-> & new_rows & -> & Hrecs & ->).
    split; [done|]. exists (new_row :: new_rows). split; [|split].
    + by rewrite <- app_assoc.
    + by constructor.
    + destruct rows as [|row' rows].
      * by rewrite (left_id_L ∅ (∪)).
      * by rewrite (assoc_L (∪)), (idemp_L (∪)).
Qed.

Lemma calculate_final_distances_run df directions lengths w finals fieldnames w' :
  calculate_final_distances df directions lengths w = (Ok (finals, fieldnames), w') →
  w' = w
  ∧ ∃ rows,
      files w !! df = Some rows
      ∧ Forall2 (row_record directions lengths w) (DictReader rows) finals
      ∧ fieldnames
        = py_list_of_set
            ((if DictReader rows is [] then ∅
              else list_to_set ((λ p, direction_key p.1.1 p.2) <$> spec_pairs lengths))
             ∪ ({[ "IntegrationSite#"; "Chromosome"; "Position" ]} : gset string)).
Proof.
  unfold calculate_final_distances. intros H.
  apply bind_inv_Ok in H as (rows & w1 & Hopen & H).
  unfold open_read in Hopen.
  destruct (files w !! df) as [rows'|] eqn:Hdf; [|done].
  injection Hopen as <- <-.
  apply bind_inv_Ok in H as ([recs fns] & w2 & Hfold & H).
  unfold ret in H. injection H as <- <- <-.
  apply calculate_final_distances_rows_run in Hfold as (-> & new_rows & -> & Hrecs & ->).
  split; [done|]. exists rows'. done.
Qed.

(** When the run ends normally: every row has the three identity columns
    and every entry of every row is resolved without an exception. *)
Lemma calculate_final_distances_enzymes_ok row sd (lengths : lengths_t) w :
  (∀ enzyme offsets dt, (enzyme, offsets) ∈ lengths → dt ∈ ["L"; "H"] →
     ∃ v, final_distance row sd enzyme offsets dt w = (Ok v, w)) →
  ∀ st, ∃ st',
    foldM (calculate_final_distances_enzyme row sd) st lengths w = (Ok st', w).
Proof.
  induction lengths as [|[enzyme offsets] lengths IH]; intros Hall st.
  - by exists st.
  - destruct (Hall enzyme offsets "L") as [vL HL]; [by left|by left|].
    destruct (Hall enzyme offsets "H") as [vH HH]; [by left|right; by left|].
    destruct st as [new_row fns].
    destruct (IH (λ e o dt Hin, Hall e o dt (list_elem_of_further _ _ _ Hin))
                 (<[direction_key enzyme "H" := vH]>
                    (<[direction_key enzyme "L" := vL]> new_row),
                  {[direction_key enzyme "H"]} ∪ ({[direction_key enzyme "L"]} ∪ fns)))
      as [st' Hrest].
    exists st'. simpl. unfold bind at 1.
    unfold calculate_final_distances_enzyme at 1. simpl.
    unfold bind at 1. unfold bind at 1. rewrite HL. unfold ret at 1.
    unfold bind at 1. unfold bind at 1. rewrite HH. unfold ret at 1.
    unfold ret at 1. exact Hrest.
Qed.

Lemma calculate_final_distances_rows_ok directions (lengths : lengths_t)
    (rows : list (gmap string cell)) w :
  (∀ row, row ∈ rows →
     ∃ site_id,
       row !! "IntegrationSite#" = Some site_id
       ∧ is_Some (row !! "Chromosome") ∧ is_Some (row !! "Position")
       ∧ ∀ enzyme offsets dt, (enzyme, offsets) ∈ lengths → dt ∈ ["L"; "H"] →
           ∃ v, final_distance row (default ∅ (directions !! site_id))
                               enzyme offsets dt w = (Ok v, w)) →
  ∀ st, ∃ st',
    foldM (calculate_final_distances_row directions lengths) st rows w = (Ok st', w).
Proof.
  induction rows as [|row rows IH]; intros Hall st.
  - by exists st.
  - destruct (Hall row) as (site_id & Hs & [chromosome Hc] & [position Hp] & Hcells);
      [by left|].
    destruct (calculate_final_distances_enzymes_ok row
                (default ∅ (directions !! site_id)) lengths w Hcells
                (<["Position" := of_cell position]>
                   (<["Chromosome" := of_cell chromosome]>
                      {[ "IntegrationSite#" := of_cell site_id ]}), st.2))
      as [[new_row fns] Hinner].
    destruct (IH (λ r Hin, Hall r (list_elem_of_further _ _ _ Hin))
                 (st.1 ++ [new_row], fns)) as [st' Hrest].
    exists st'. simpl. unfold bind at 1.
    unfold calculate_final_distances_row at 1, bind at 1, getitem. rewrite Hs.
    unfold ret at 1, bind at 1. rewrite Hc. unfold ret at 1, bind at 1. rewrite Hp.
    unfold ret at 1, bind at 1. rewrite Hinner. unfold ret at 1. exact Hrest.
Qed.

Lemma calculate_final_distances_ok df directions (lengths : lengths_t)
    (rows : list (list string)) w :
  files w !! df = Some rows →
  (∀ row, row ∈ DictReader rows →
     ∃ site_id,
       row !! "IntegrationSite#" = Some site_id
       ∧ is_Some (row !! "Chromosome") ∧ is_Some (row !! "Position")
       ∧ ∀ enzyme offsets dt, (enzyme, offsets) ∈ lengths → dt ∈ ["L"; "H"] →
           ∃ v, final_distance row (default ∅ (directions !! site_id))
                               enzyme offsets dt w = (Ok v, w)) →
  ∃ finals fieldnames,
    calculate_final_distances df directions lengths w = (Ok (finals, fieldnames), w).
Proof.
  intros Hdf Hall.
  destruct (calculate_final_distances_rows_ok directions lengths (DictReader rows) w
              Hall ([], {[ "IntegrationSite#"; "Chromosome"; "Position" ]}))
    as [[finals fns] Hloop].
  exists finals, (py_list_of_set fns).
  unfold calculate_final_distances, bind at 1, open_read. rewrite Hdf.
  unfold bind at 1. by rewrite Hloop.
Qed.

(** ** Stage 2: composite names do not collide *)

Lemma list_ascii_of_string_app (s t : string) :
  list_ascii_of_string (s +:+ t) = list_ascii_of_string s ++ list_ascii_of_string t.
Proof. induction s as [|a s IH]; simpl; [done|]. by rewrite IH. Qed.

Lemma list_ascii_of_string_inj (s t : string) :
  list_ascii_of_string s = list_ascii_of_string t → s = t.
Proof.
  intros H. rewrite <- (string_of_list_ascii_of_string s),
              <- (string_of_list_ascii_of_string t). by rewrite H.
Qed.

Lemma direction_key_inj enzyme dt enzyme' dt' :
  dt ∈ ["L"; "H"] → dt' ∈ ["L"; "H"] →
  direction_key enzyme dt = direction_key enzyme' dt' →
  py_str (of_cell enzyme) = py_str (of_cell enzyme') ∧ dt = dt'.
Proof.
  intros Hdt Hdt' Hkey. unfold direction_key in Hkey.
  apply (f_equal list_ascii_of_string) in Hkey.
  rewrite !list_ascii_of_string_app in Hkey.
  apply app_inj_2 in Hkey as [Hname Hsuffix].
  - split; [by apply list_ascii_of_string_inj|].
    apply list_ascii_of_string_inj. simpl in Hsuffix. congruence.
  - rewrite !elem_of_cons, elem_of_nil in Hdt, Hdt'.
    destruct Hdt as [->|[->|[]]], Hdt' as [->|[->|[]]]; done.
Qed.

Lemma elem_of_spec_pairs (lengths : lengths_t) enzyme offsets dt :
  (enzyme, offsets, dt) ∈ spec_pairs lengths
  ↔ (enzyme, offsets) ∈ lengths ∧ dt ∈ ["L"; "H"].
Proof.
  unfold spec_pairs. rewrite list_elem_of_In, in_flat_map. split.
  - intros ([e o] & Hitem & Hp). apply list_elem_of_In in Hitem.
    simpl in Hp. destruct Hp as [Hp|[Hp|[]]]; simplify_eq; split; try done.
    + by left.
    + right; by left.
  - intros [Hitem Hdt]. exists (enzyme, offsets). split; [by apply list_elem_of_In|].
    rewrite !elem_of_cons, elem_of_nil in Hdt. simpl.
    destruct Hdt as [->|[->|[]]]; tauto.
Qed.

(** Enzymes whose names print differently give pairwise different
    composite names. *)
Lemma spec_keys_NoDup (lengths : lengths_t) :
  NoDup ((λ item, py_str (of_cell item.1)) <$> lengths) →
  NoDup ((λ p, direction_key p.1.1 p.2) <$> spec_pairs lengths).
Proof.
  induction lengths as [|[e o] lengths IH]; intros Hnd; [constructor|].
  rewrite fmap_cons in Hnd. apply NoDup_cons in Hnd as [Hfresh Hnd].
  simpl.
  assert (∀ dt, dt ∈ ["L"; "H"] →
            direction_key e dt ∉ (λ p, direction_key p.1.1 p.2) <$> spec_pairs lengths)
    as Hother.
  { intros dt Hdt Hin. apply list_elem_of_fmap in Hin as ([[e' o'] dt'] & Hkey & Hp).
    apply elem_of_spec_pairs in Hp as [Hitem Hdt']. simpl in Hkey.
    apply direction_key_inj in Hkey as [Hname _]; [|done..].
    apply Hfresh. apply list_elem_of_fmap. exists (e', o'). done. }
  apply NoDup_cons. split.
  - intros Hin. apply elem_of_cons in Hin as [Hkey|Hin].
    + apply direction_key_inj in Hkey as [_ ?]; [done| |].
      * by left.
      * right; by left.
    + revert Hin. apply Hother. by left.
  - apply NoDup_cons. split; [|by apply IH].
    apply Hother. right; by left.
Qed.

Lemma row_record_entry directions lengths w row new_row enzyme offsets dt :
  row_record directions lengths w row new_row →
  (enzyme, offsets) ∈ lengths → dt ∈ ["L"; "H"] →
  (∃ v, new_row !! direction_key enzyme dt = Some v ∧ distance_value v)
  ∧ (NoDup ((λ item, py_str (of_cell item.1)) <$> lengths) →
     ∀ site_id, row !! "IntegrationSite#" = Some site_id →
     ∃ v, new_row !! direction_key enzyme dt = Some v
          ∧ final_distance row (default ∅ (directions !! site_id))
                           enzyme offsets dt w = (Ok v, w)).
Proof.
  intros (site_id & chromosome & position & kvs & Hs & _ & _ & Hkvs & ->) Hitem Hdt.
  assert (kvs.*1 = (λ p, direction_key p.1.1 p.2) <$> spec_pairs lengths) as Hkeys.
  { clear -Hkvs. induction Hkvs as [|p kv ps kvs [Hk _] _ IH]; [done|].
    rewrite !fmap_cons. by f_equal. }
  assert ((enzyme, offsets, dt) ∈ spec_pairs lengths) as Hp
    by (by apply elem_of_spec_pairs).
  split.
  - destruct (assign_all_lookup_in
                (<["Position" := of_cell position]>
                   (<["Chromosome" := of_cell chromosome]>
                      {[ "IntegrationSite#" := of_cell site_id ]}))
                kvs (direction_key enzyme dt)) as (v & Hv & Hkv).
    { rewrite Hkeys. apply list_elem_of_fmap. by exists (enzyme, offsets, dt). }
    exists v. split; [done|].
    apply list_elem_of_lookup in Hkv as [i Hi].
    destruct (Forall2_lookup_r _ _ _ _ _ Hkvs Hi) as (p & _ & _ & Hfinal).
    by eapply final_distance_value.
  - intros Hnd site_id' Hs'. rewrite Hs in Hs'. injection Hs' as <-.
    apply list_elem_of_lookup in Hp as [i Hi].
    destruct (Forall2_lookup_l _ _ _ _ _ Hkvs Hi) as ([k v] & Hkv & Hk & Hfinal).
    simpl in Hk, Hfinal. subst k. exists v. split; [|done].
    apply assign_all_lookup_NoDup.
    + rewrite Hkeys. by apply spec_keys_NoDup.
    + apply list_elem_of_lookup. by exists i.
Qed.

(** C4.  How one (row, enzyme, offset name) entry is resolved.  With
    direction ["up"] the column is ["<enzyme> UpstreamDist"], with ["down"]
    it is ["<enzyme> DownstreamDist"]; with any other direction, a missing
    one included, there is no column and the result is the sentinel
    whatever the row holds.  Once a column is chosen: if the row holds the
    sentinel there (or lacks the column) the result is the sentinel;
    otherwise the cell is parsed as an integer and the result is that integer
    plus the offset, unclamped (a cell that is not an integer raises
    [ValueError]).  This is the engine's own result: on a run of
    [calculate_final_distances] that ends normally, with enzyme names that
    print differently, every data row of the table has its record, at the
    row's place, and the record stores exactly this result under
    ["<enzyme>_<offset name>"]; and the run does end normally as soon as
    every data row has the three identity columns and every entry of every
    row is resolved without an exception. *)
Theorem final_distance_correct (row site_directions : gmap string cell)
    (enzyme : cell) (offsets : gmap string Z) (direction_type : string) (w : world) :
  let user_direction :=
    default (Some "") (site_directions !! direction_key enzyme direction_type) in
  let name := py_str (of_cell enzyme) in
  let result := final_distance row site_directions enzyme offsets direction_type w in
  (user_direction = Some "up" →
     dist_key enzyme user_direction = Some (name +:+ " UpstreamDist"))
  ∧ (user_direction = Some "down" →
     dist_key enzyme user_direction = Some (name +:+ " DownstreamDist"))
  ∧ (user_direction ≠ Some "up" → user_direction ≠ Some "down" →
     dist_key enzyme user_direction = None ∧ result = (Ok (PStr "N/A"), w))
  ∧ (∀ key, dist_key enzyme user_direction = Some key →
       (row !! key = Some (Some "N/A") → result = (Ok (PStr "N/A"), w))
       ∧ (row !! key = None → result = (Ok (PStr "N/A"), w))
       ∧ (∀ v z offset,
            row !! key = Some (Some v) → v ≠ "N/A" → py_int v = Some z →
            offsets !! direction_type = Some offset →
            result = (Ok (PInt (z + offset)), w))
       ∧ (∀ v, row !! key = Some (Some v) → v ≠ "N/A" → py_int v = None →
            result = (Raise ValueError, w)))
  ∧ (∀ distances_file directions lengths rows finals fieldnames w' i site_id,
       calculate_final_distances distances_file directions lengths w
       = (Ok (finals, fieldnames), w') →
       NoDup ((λ item, py_str (of_cell item.1)) <$> lengths) →
       files w !! distances_file = Some rows →
       DictReader rows !! i = Some row →
       row !! "IntegrationSite#" = Some site_id →
       site_directions = default ∅ (directions !! site_id) →
       (enzyme, offsets) ∈ lengths → direction_type ∈ ["L"; "H"] →
       length finals = length (DictReader rows)
       ∧ ∃ new_row v,
           finals !! i = Some new_row
           ∧ new_row !! direction_key enzyme direction_type = Some v
           ∧ result = (Ok v, w))
  ∧ (∀ distances_file (directions : directions_t) (lengths : lengths_t) rows,
       files w !! distances_file = Some rows →
       (∀ row', row' ∈ DictReader rows →
          ∃ site_id,
            row' !! "IntegrationSite#" = Some site_id
            ∧ is_Some (row' !! "Chromosome") ∧ is_Some (row' !! "Position")
            ∧ ∀ enzyme' offsets' direction_type',
                (enzyme', offsets') ∈ lengths → direction_type' ∈ ["L"; "H"] →
                ∃ v, final_distance row' (default ∅ (directions !! site_id))
                                    enzyme' offsets' direction_type' w = (Ok v, w)) →
       ∃ finals fieldnames,
         calculate_final_distances distances_file directions lengths w
         = (Ok (finals, fieldnames), w)).
Proof.
  intros user_direction name result. subst result. unfold final_distance.
  fold user_direction.
  split; [|split; [|split; [|split; [|split]]]].
  - intros Hup. unfold dist_key. by destruct (decide (user_direction = Some "up")).
  - intros Hdown. unfold dist_key. rewrite Hdown.
    destruct (decide (Some "down" = Some "up")); [done|].
    by destruct (decide (Some "down" = Some "down")).
  - intros Hup Hdown. unfold dist_key.
    destruct (decide (user_direction = Some "up")); [done|].
    by destruct (decide (user_direction = Some "down")).
  - intros key Hkey. rewrite Hkey.
    pose proof (dist_key_nonempty _ _ _ Hkey) as Hne.
    rewrite (bool_decide_eq_true_2 (key ≠ "")) by done. simpl.
    split; [|split; [|split]].
    + intros ->. by rewrite bool_decide_eq_false_2 by tauto.
    + by intros ->.
    + intros v z offset -> Hv Hint Hoff.
      rewrite bool_decide_eq_true_2 by congruence.
      simpl. unfold bind, int_str, getitem. by rewrite Hint, Hoff.
    + intros v -> Hv Hint.
      rewrite bool_decide_eq_true_2 by congruence.
      simpl. unfold bind, int_str. by rewrite Hint.
  - intros df directions lengths rows finals fieldnames w' i site_id
           Hrun Hnd Hdf Hrow Hsite -> Hitem Hdt.
    apply calculate_final_distances_run in Hrun as (-> & rows' & Hdf' & Hrecs & _).
    rewrite Hdf in Hdf'. injection Hdf' as <-.
    split; [symmetry; by eapply Forall2_length|].
    destruct (Forall2_lookup_l _ _ _ _ _ Hrecs Hrow) as (new_row & Hrec & Hrr).
    destruct (row_record_entry _ _ _ _ _ _ _ _ Hrr Hitem Hdt) as [_ Hentry].
    destruct (Hentry Hnd site_id Hsite) as (v & Hv & Hfinal).
    by exists new_row, v.
  - intros df directions lengths rows Hdf Hall.
    by eapply calculate_final_distances_ok.
Qed.

(** C9, as the code has it.  On a run of [calculate_final_distances] that
    ends normally there is one record per data row of the distances table,
    in order, and every record holds, for every (enzyme, offset name) pair
    of the Spec, an entry that is an integer or the sentinel.  The returned
    field names are without repetition; when the distances table has at
    least one data row they are the three identity columns and the
    composite names of the Spec, and when it has none there is no record and
    they are the three identity columns alone. *)
Theorem final_records_complete (distances_file : string) (directions : directions_t)
    (lengths : lengths_t) (w w' : world) (rows : list (list string))
    (finals : list record) (fieldnames : list string) :
  files w !! distances_file = Some rows →
  calculate_final_distances distances_file directions lengths w
  = (Ok (finals, fieldnames), w') →
  length finals = length (DictReader rows)
  ∧ (∀ i row, DictReader rows !! i = Some row →
       ∃ new_row,
         finals !! i = Some new_row
         ∧ ∀ enzyme offsets direction_type,
             (enzyme, offsets) ∈ lengths → direction_type ∈ ["L"; "H"] →
             ∃ v, new_row !! direction_key enzyme direction_type = Some v
                  ∧ distance_value v)
  ∧ (∀ new_row enzyme offsets direction_type,
       new_row ∈ finals → (enzyme, offsets) ∈ lengths →
       direction_type ∈ ["L"; "H"] →
       ∃ v, new_row !! direction_key enzyme direction_type = Some v ∧ distance_value v)
  ∧ NoDup fieldnames
  ∧ (DictReader rows ≠ [] → finals ≠ [] ∧ fieldnames_cover_spec lengths fieldnames)
  ∧ (DictReader rows = [] →
     finals = [] ∧ ∀ k, k ∈ fieldnames ↔ k ∈ identity_columns).
Proof.
  intros Hdf Hrun.
  apply calculate_final_distances_run in Hrun as (-> & rows' & Hdf' & Hrecs & ->).
  rewrite Hdf in Hdf'. injection Hdf' as <-.
  assert (∀ k, k ∈ ({[ "IntegrationSite#"; "Chromosome"; "Position" ]} : gset string)
               ↔ k ∈ identity_columns) as Hid.
  { intros k. unfold identity_columns. set_unfold. tauto. }
  split; [|split; [|split; [|split; [|split]]]].
  - symmetry. by eapply Forall2_length.
  - intros i row Hrow.
    destruct (Forall2_lookup_l _ _ _ _ _ Hrecs Hrow) as (new_row & Hrec & Hrr).
    exists new_row. split; [done|]. intros enzyme offsets dt Hitem Hdt.
    by destruct (row_record_entry _ _ _ _ _ _ _ _ Hrr Hitem Hdt) as [Hentry _].
  - intros new_row enzyme offsets dt Hrec Hitem Hdt.
    apply list_elem_of_lookup in Hrec as [i Hi].
    destruct (Forall2_lookup_r _ _ _ _ _ Hrecs Hi) as (row & _ & Hrr).
    by destruct (row_record_entry _ _ _ _ _ _ _ _ Hrr Hitem Hdt) as [Hentry _].
  - apply NoDup_py_list_of_set.
  - intros Hne. split.
    { intros ->. apply Forall2_nil_inv_r in Hrecs. done. }
    intros k. rewrite elem_of_py_list_of_set.
    destruct (DictReader rows) as [|row rs]; [done|].
    rewrite elem_of_union, elem_of_list_to_set, list_elem_of_fmap, Hid.
    split.
    + intros [([[e o] dt] & -> & Hp)|Hk]; [right|by left].
      apply elem_of_spec_pairs in Hp as [Hitem Hdt]. by exists e, o, dt.
    + intros [Hk|(e & o & dt & Hitem & Hdt & ->)]; [by right|left].
      exists (e, o, dt). split; [done|]. by apply elem_of_spec_pairs.
  - intros Hnil. rewrite Hnil in *. split.
    { by apply Forall2_nil_inv_l in Hrecs. }
    intros k. rewrite elem_of_py_list_of_set.
    by rewrite (left_id_L ∅ (∪)), Hid.
Qed.

(** C10.  [write_final_distances] has no guard for an empty record list: it
    creates (or empties) the output file and writes the header row, so the
    file holds the header alone; [write_results] on an empty list leaves
    the files untouched. *)
Theorem write_final_distances_empty (fieldnames : list string)
    (output_filename : string) (w : world) :
  write_final_distances [] fieldnames output_filename w
  = (Ok (),
     World (<[output_filename := [fieldnames]]> (files w))
           (stdout w ++ [InfoFinalWritten output_filename]))
  ∧ files (write_final_distances [] fieldnames output_filename w).2
      !! output_filename = Some [fieldnames]
  ∧ files (write_results [] output_filename w).2 = files w.
Proof.
  assert (write_final_distances [] fieldnames output_filename w
          = (Ok (),
             World (<[output_filename := [fieldnames]]> (files w))
                   (stdout w ++ [InfoFinalWritten output_filename]))) as Hrun.
  { unfold write_final_distances, bind, open_write, writerow, print. simpl.
    by rewrite lookup_insert_eq, insert_insert_eq. }
  split; [done|]. split; [|done].
  rewrite Hrun. apply lookup_insert_eq.
Qed.

Lemma enzyme_columns_length (ep : index) chromosome position :
  length (enzyme_columns ep chromosome position) = (3 * length ep)%nat.
Proof.
  induction ep as [|[enzyme chroms] ep IH]; [done|].
  unfold enzyme_columns in *. simpl.
  destruct (enzyme_distances chroms chromosome position).
  simpl. rewrite IH. lia.
Qed.

Lemma enzyme_columns_every_third (ep : index) chromosome position :
  every_third (enzyme_columns ep chromosome position) = (PStr ∘ fst) <$> ep.
Proof.
  induction ep as [|[enzyme chroms] ep IH]; [done|].
  unfold enzyme_columns in *. simpl.
  destruct (enzyme_distances chroms chromosome position).
  simpl. by rewrite IH.
Qed.

Lemma results_header_length (enzyme_names : list pyval) :
  length (results_header enzyme_names) = (3 + 2 * length enzyme_names)%nat.
Proof.
  unfold results_header. simpl. f_equal. f_equal. f_equal.
  induction enzyme_names as [|e l IH]; [done|]. simpl. rewrite IH. lia.
Qed.

(** * Further properties *)

(** ** Insertion-ordered dictionaries *)

Section odict_facts.

Context {K V : Type} `{EqDecision K}.

Implicit Types (d : odict K V) (k : K) (v : V).

Lemma od_get_set_eq k v d : od_get k (od_set k v d) = Some v.
Proof.
  induction d as [|[k' v'] d IH]; simpl.
  - by case_decide.
  - destruct (decide (k = k')) as [->|Hne]; simpl; by case_decide.
Qed.

Lemma od_get_set_ne k k' v d : k ≠ k' → od_get k' (od_set k v d) = od_get k' d.
Proof.
  intros Hne. induction d as [|[k0 v0] d IH]; simpl.
  - case_decide; [congruence|done].
  - destruct (decide (k = k0)) as [->|Hne0]; simpl.
    + repeat case_decide; congruence.
    + by destruct (decide (k' = k0)).
Qed.

Lemma od_get_Some_keys k d : is_Some (od_get k d) ↔ k ∈ map fst d.
Proof.
  induction d as [|[k0 v0] d IH]; simpl.
  - split; [by intros [? ?]|by intros ?%elem_of_nil].
  - rewrite elem_of_cons. destruct (decide (k = k0)) as [->|Hne].
    + split; [by left|by eexists].
    + rewrite IH. split; [by right|]. by intros [?|?].
Qed.

Lemma od_mem_keys k d : od_mem k d = bool_decide (k ∈ map fst d).
Proof. unfold od_mem. apply bool_decide_ext, od_get_Some_keys. Qed.

(** Assigning to a key that is there keeps the order of the keys; a new key
    goes to the end. *)
Lemma od_set_keys k v d :
  map fst (od_set k v d)
  = if decide (k ∈ map fst d) then map fst d else map fst d ++ [k].
Proof.
  induction d as [|[k0 v0] d IH].
  - destruct (decide (k ∈ map fst [])) as [Hin|_]; [by apply elem_of_nil in Hin|done].
  - destruct (decide (k ∈ map fst ((k0, v0) :: d))) as [Hin|Hnin]; simpl;
      destruct (decide (k = k0)) as [->|Hne]; simpl; try done.
    + rewrite IH. apply elem_of_cons in Hin as [?|Hin]; [done|].
      by destruct (decide (k ∈ map fst d)).
    + exfalso. apply Hnin. by left.
    + rewrite IH. destruct (decide (k ∈ map fst d)) as [Hin|_]; [|done].
      exfalso. apply Hnin. by right.
Qed.

Lemma od_get_map_values {W} (f : V → W) k d :
  od_get k (map (λ '(k', v'), (k', f v')) d) = f <$> od_get k d.
Proof.
  induction d as [|[k0 v0] d IH]; simpl; [done|].
  by destruct (decide (k = k0)).
Qed.

End odict_facts.

Lemma first_seen_from_NoDup {A} `{EqDecision A} (l seen : list A) :
  NoDup seen →
  NoDup (foldl (λ seen x, if decide (x ∈ seen) then seen else seen ++ [x]) seen l).
Proof.
  revert seen. induction l as [|x l IH]; intros seen Hnd; simpl; [done|].
  apply IH. destruct (decide (x ∈ seen)); [done|].
  apply NoDup_app. split; [done|]. split; [|apply NoDup_singleton].
  intros y Hy ->%list_elem_of_singleton. done.
Qed.

Lemma first_seen_from_elem_of {A} `{EqDecision A} (l seen : list A) (y : A) :
  y ∈ foldl (λ seen x, if decide (x ∈ seen) then seen else seen ++ [x]) seen l
  ↔ y ∈ seen ∨ y ∈ l.
Proof.
  revert seen. induction l as [|x l IH]; intros seen; simpl.
  - rewrite elem_of_nil. tauto.
  - rewrite IH, elem_of_cons. destruct (decide (x ∈ seen)) as [Hin|Hnin].
    + split; [tauto|]. intros [?|[->|?]]; tauto.
    + rewrite elem_of_app, list_elem_of_singleton. tauto.
Qed.

(** ** The index that [read_enzyme_positions] builds *)

Lemma read_enzyme_positions_row_valid acc enzyme chromosome position w :
  read_enzyme_positions_row acc [enzyme; chromosome; position] w
  = match py_int position with
    | Some p => (Ok (add_position acc enzyme chromosome p), w)
    | None => (Raise ValueError, w)
    end.
Proof.
  simpl. unfold bind. rewrite int_str_run. by destruct (py_int position).
Qed.

Lemma od_get_or_create {V} (k k' : string) (d : odict string V) (v0 : V) :
  od_get k' (if od_mem k d then d else od_set k v0 d)
  = if decide (k' = k) then Some (default v0 (od_get k d)) else od_get k' d.
Proof.
  rewrite od_mem_keys.
  destruct (decide (k ∈ map fst d)) as [Hin|Hnin].
  - rewrite bool_decide_eq_true_2 by done.
    apply od_get_Some_keys in Hin as [x Hx].
    destruct (decide (k' = k)) as [->|]; [by rewrite Hx|done].
  - rewrite bool_decide_eq_false_2 by done.
    assert (od_get k d = None) as Hnone.
    { apply eq_None_not_Some. by rewrite od_get_Some_keys. }
    destruct (decide (k' = k)) as [->|Hne].
    + by rewrite od_get_set_eq, Hnone.
    + by rewrite od_get_set_ne.
Qed.

Lemma add_position_lookup acc enzyme chromosome p e c :
  index_lookup (add_position acc enzyme chromosome p) e c
  = if decide (e = enzyme ∧ c = chromosome)
    then Some (default [] (index_lookup acc enzyme chromosome) ++ [p])
    else index_lookup acc e c.
Proof.
  unfold index_lookup, add_position.
  pose proof (λ e', od_get_or_create enzyme e' acc []) as Hep1.
  pose proof (λ c', od_get_or_create chromosome c'
                      (default [] (od_get enzyme acc)) []) as Hch1.
  cbv zeta. unfold odict in *. rewrite (Hep1 enzyme), decide_True by done.
  cbn [from_option id].
  destruct (decide (e = enzyme)) as [->|Hne].
  - rewrite od_get_set_eq. cbn [mbind option_bind].
    destruct (decide (c = chromosome)) as [->|Hnc].
    + rewrite od_get_set_eq, (Hch1 chromosome).
      rewrite !decide_True by done. cbn [from_option id].
      by destruct (od_get enzyme acc).
    + rewrite od_get_set_ne by done. rewrite (Hch1 c).
      rewrite !decide_False by tauto.
      by destruct (od_get enzyme acc).
  - rewrite od_get_set_ne by done. rewrite (Hep1 e).
    by rewrite !decide_False by tauto.
Qed.

Lemma add_position_keys acc enzyme chromosome p :
  map fst (add_position acc enzyme chromosome p)
  = if decide (enzyme ∈ map fst acc) then map fst acc else map fst acc ++ [enzyme].
Proof.
  unfold add_position. rewrite od_set_keys, od_mem_keys.
  destruct (decide (enzyme ∈ map fst acc)) as [Hin|Hnin].
  - rewrite bool_decide_eq_true_2 by done. by case_decide.
  - rewrite bool_decide_eq_false_2 by done. rewrite od_set_keys.
    destruct (decide (enzyme ∈ map fst acc)); [done|].
    case_decide as Hin; [done|]. exfalso. apply Hin.
    apply elem_of_app. right. by left.
Qed.

Lemma encode_positions_default (ps : list Z) : default [] (encode_positions ps) = ps.
Proof. unfold encode_positions. by case_decide. Qed.

Lemma encode_positions_snoc (ps : list Z) (p : Z) :
  encode_positions (ps ++ [p]) = Some (ps ++ [p]).
Proof.
  unfold encode_positions. case_decide as Hnil; [|done].
  by apply app_nil in Hnil as [_ ?].
Qed.

(** The reading loop, from any accumulator: what a pair of keys holds at
    the end is what it held before followed by the positions of the file,
    and the enzymes are in the order of their first rows. *)
Lemma read_enzyme_positions_loop (rows : list (list string)) :
  ∀ acc (pre : string → string → list Z) w idx w',
    (∀ e c, index_lookup acc e c = encode_positions (pre e c)) →
    foldM read_enzyme_positions_row acc rows w = (Ok idx, w') →
    (∀ e c, index_lookup idx e c
            = encode_positions (pre e c ++ file_positions rows e c))
    ∧ map fst idx
      = foldl (λ seen x, if decide (x ∈ seen) then seen else seen ++ [x])
              (map fst acc) (first_fields rows).
Proof.
  induction rows as [|row rows IH]; intros acc pre w idx w' Hacc Hrun.
  - simpl in Hrun. injection Hrun as <- <-. split; [|done].
    intros e c. simpl. by rewrite app_nil_r.
  - simpl in Hrun. apply bind_inv_Ok in Hrun as (acc1 & w1 & Hrow & Hrun).
    destruct (decide (length row = 3%nat)) as [H3|H3].
    + apply three_fields in H3 as (e0 & c0 & p0 & ->).
      rewrite read_enzyme_positions_row_valid in Hrow.
      destruct (py_int p0) as [z|] eqn:Hp; [|done].
      injection Hrow as <- <-.
      destruct (IH (add_position acc e0 c0 z)
                  (λ e c, pre e c ++ if decide (e = e0 ∧ c = c0) then [z] else [])
                  w idx w') as [Hlook Hkeys]; [|done|].
      { intros e c. rewrite add_position_lookup.
        destruct (decide (e = e0 ∧ c = c0)) as [[-> ->]|Hne].
        - by rewrite Hacc, encode_positions_default, encode_positions_snoc.
        - by rewrite app_nil_r. }
      split.
      * intros e c. rewrite Hlook, <- app_assoc. simpl. rewrite Hp.
        destruct (decide (e = e0 ∧ c = c0)) as [Heq|Hne];
          destruct (decide (e0 = e ∧ c0 = c)) as [Heq'|Hne']; try done.
        -- exfalso. apply Hne'. by destruct Heq.
        -- exfalso. apply Hne. by destruct Heq'.
      * rewrite Hkeys, add_position_keys. done.
    + rewrite read_enzyme_positions_row_skip in Hrow by done.
      injection Hrow as <- <-.
      destruct (IH acc pre _ idx w' Hacc Hrun) as [Hlook Hkeys].
      assert (file_positions (row :: rows) = file_positions rows
              ∧ first_fields (row :: rows) = first_fields rows) as [-> ->]; [|done].
      by destruct row as [|? [|? [|? [|? ?]]]].
Qed.

Lemma sort_positions_lookup (idx : index) e c :
  index_lookup (sort_positions idx) e c = merge_sort Z.le <$> index_lookup idx e c.
Proof.
  unfold index_lookup, sort_positions.
  pose proof (od_get_map_values
                (map (λ '(chrom, positions), (chrom, merge_sort Z.le positions)))
                e idx) as Houter.
  unfold odict in *. rewrite Houter.
  destruct (od_get e idx) as [chroms|]; simpl; [|done].
  apply (od_get_map_values (merge_sort Z.le)).
Qed.

Lemma sort_positions_keys (idx : index) : map fst (sort_positions idx) = map fst idx.
Proof.
  unfold sort_positions. induction idx as [|[e chroms] idx IH]; simpl; [done|].
  by rewrite IH.
Qed.

Lemma read_enzyme_positions_Ok f rows w idx w' :
  files w !! f = Some rows →
  read_enzyme_positions f w = (Ok idx, w') →
  ∃ idx0, foldM read_enzyme_positions_row [] rows w = (Ok idx0, w')
          ∧ idx = sort_positions idx0.
Proof.
  intros Hf Hrun. unfold read_enzyme_positions in Hrun.
  apply bind_inv_Ok in Hrun as (rows' & w1 & Hopen & Hrun).
  unfold open_read in Hopen. rewrite Hf in Hopen. injection Hopen as <- <-.
  apply bind_inv_Ok in Hrun as (idx0 & w2 & Hloop & Hret).
  injection Hret as <- <-. by exists idx0.
Qed.

Lemma read_enzyme_positions_lookup f rows w idx w' :
  files w !! f = Some rows →
  read_enzyme_positions f w = (Ok idx, w') →
  ∀ e c, index_lookup idx e c
         = merge_sort Z.le <$> encode_positions (file_positions rows e c).
Proof.
  intros Hf Hrun e c.
  destruct (read_enzyme_positions_Ok _ _ _ _ _ Hf Hrun) as (idx0 & Hloop & ->).
  destruct (read_enzyme_positions_loop rows [] (λ _ _, []) w idx0 w')
    as [Hlook _]; [done..|].
  by rewrite sort_positions_lookup, Hlook.
Qed.

Lemma read_enzyme_positions_keys f rows w idx w' :
  files w !! f = Some rows →
  read_enzyme_positions f w = (Ok idx, w') →
  map fst idx = first_seen (first_fields rows) ∧ NoDup (map fst idx).
Proof.
  intros Hf Hrun.
  destruct (read_enzyme_positions_Ok _ _ _ _ _ Hf Hrun) as (idx0 & Hloop & ->).
  destruct (read_enzyme_positions_loop rows [] (λ _ _, []) w idx0 w')
    as [_ Hkeys]; [done..|].
  rewrite sort_positions_keys, Hkeys. split; [done|].
  apply first_seen_from_NoDup. constructor.
Qed.

(** X1.  The index of a run of [read_enzyme_positions] that ends normally
    holds, for every enzyme and chromosome, the positions the file gives for
    them, sorted ascending: the pair of keys is there exactly when the file
    has a row for it, and its list is ascending, is never empty and is a
    permutation of the file's positions (duplicates kept). *)
Theorem read_enzyme_positions_index (f : string) (rows : list (list string))
    (w w' : world) (idx : index) :
  files w !! f = Some rows →
  read_enzyme_positions f w = (Ok idx, w') →
  (∀ e c, index_lookup idx e c
          = merge_sort Z.le <$> encode_positions (file_positions rows e c))
  ∧ (∀ e c ps, index_lookup idx e c = Some ps →
       Sorted Z.le ps ∧ ps ≡ₚ file_positions rows e c ∧ ps ≠ []).
Proof.
  intros Hf Hrun.
  pose proof (read_enzyme_positions_lookup _ _ _ _ _ Hf Hrun) as Hidx.
  split; [done|]. intros e c ps Hps. rewrite Hidx in Hps.
  unfold encode_positions in Hps. case_decide as Hnil; [done|].
  injection Hps as <-. split; [|split].
  - apply Sorted_merge_sort. intros x y. apply Z.le_ge_cases.
  - apply merge_sort_Permutation.
  - intros Heq. apply Hnil. apply Permutation_nil_r.
    rewrite <- Heq. symmetry. apply merge_sort_Permutation.
Qed.

Lemma elem_of_first_fields (rows : list (list string)) (e : string) :
  e ∈ first_fields rows ↔ ∃ c p, [e; c; p] ∈ rows.
Proof.
  unfold first_fields. rewrite list_elem_of_In, in_flat_map. split.
  - intros (row & Hrow & He). apply list_elem_of_In in Hrow.
    destruct row as [|a [|b [|c [|? ?]]]]; simpl in He; try done.
    destruct He as [->|[]]. by exists b, c.
  - intros (c & p & Hrow). exists [e; c; p].
    split; [by apply list_elem_of_In|by left].
Qed.

(** X2.  The enzymes of the index are the distinct enzyme names of the
    file's three-field rows, each at the place of its first row: this is the
    order in which [calculate_distances] lays the enzymes out in every
    result row.  No enzyme occurs twice. *)
Theorem read_enzyme_positions_enzyme_order (f : string) (rows : list (list string))
    (w w' : world) (idx : index) :
  files w !! f = Some rows →
  read_enzyme_positions f w = (Ok idx, w') →
  map fst idx = first_seen (first_fields rows)
  ∧ NoDup (map fst idx)
  ∧ (∀ e, e ∈ map fst idx ↔ ∃ c p, [e; c; p] ∈ rows).
Proof.
  intros Hf Hrun.
  destruct (read_enzyme_positions_keys _ _ _ _ _ Hf Hrun) as [Hkeys Hnd].
  split; [done|]. split; [done|]. rewrite Hkeys. unfold first_seen.
  intros e. rewrite first_seen_from_elem_of, elem_of_first_fields.
  split; [|by right]. intros [Hnil|?]; [|done]. by apply elem_of_nil in Hnil.
Qed.

(** ** The distances of stage 1 *)

(** Whatever the order of the list, the scan only ever returns an element
    below the target as upstream and an element above it as downstream. *)
Lemma find_closest_loop_sides (P : list Z) (t : Z) :
  ∀ u, (∀ x, (find_closest_loop P t u None).1 = Some x →
             u = Some x ∨ (x ∈ P ∧ x < t))
       ∧ (∀ y, (find_closest_loop P t u None).2 = Some y → y ∈ P ∧ t < y).
Proof.
  induction P as [|pos rest IH]; intros u; simpl.
  - split; [by left|done].
  - destruct (Z.ltb_spec pos t) as [Hlt|Hge].
    + destruct (IH (Some pos)) as [Hup Hdown]. split.
      * intros x Hx. right. destruct (Hup x Hx) as [[= ->]|[Hin Hxt]].
        -- split; [by left|done].
        -- split; [by right|done].
      * intros y Hy. destruct (Hdown y Hy). split; [by right|done].
    + destruct (Z.gtb_spec pos t) as [Hgt|Hle]; simpl.
      * split; [by left|]. intros y [= <-]. split; [by left|lia].
      * destruct (IH u) as [Hup Hdown]. split.
        -- intros x Hx. destruct (Hup x Hx) as [?|[Hin Hxt]]; [by left|right].
           split; [by right|done].
        -- intros y Hy. destruct (Hdown y Hy). split; [by right|done].
Qed.

Lemma enzyme_distances_positive (chroms : odict string (list Z))
    (chromosome : string) (position n : Z) :
  ((enzyme_distances chroms chromosome position).1 = PInt n → 0 < n)
  ∧ ((enzyme_distances chroms chromosome position).2 = PInt n → 0 < n).
Proof.
  unfold enzyme_distances.
  destruct (od_get chromosome chroms) as [positions|]; [|done].
  destruct (find_closest_loop_sides positions position None) as [Hup Hdown].
  unfold find_closest.
  destruct (find_closest_loop positions position None None) as [[u|] [d|]];
    simpl in *; split; intros Hn; simplify_eq.
  all: try (destruct (Hup u eq_refl) as [?|[_ ?]]; [done|lia]).
  all: try (destruct (Hdown d eq_refl) as [_ ?]; lia).
Qed.

Lemma enzyme_columns_elem_of (ep : index) (chromosome : string) (position : Z)
    (v : pyval) :
  v ∈ enzyme_columns ep chromosome position →
  ∃ enzyme chroms,
    (enzyme, chroms) ∈ ep
    ∧ (v = PStr enzyme
       ∨ v = (enzyme_distances chroms chromosome position).1
       ∨ v = (enzyme_distances chroms chromosome position).2).
Proof.
  unfold enzyme_columns. rewrite list_elem_of_In, in_flat_map.
  intros ([enzyme chroms] & Hin & Hv). apply list_elem_of_In in Hin.
  exists enzyme, chroms. split; [done|].
  destruct (enzyme_distances chroms chromosome position) as [up down].
  simpl in *. destruct Hv as [<-|[<-|[<-|[]]]]; tauto.
Qed.

Lemma site_rows_valid (ep : index) a b c rows z :
  py_int c = Some z →
  site_rows ep ([a; b; c] :: rows)
  = ([PStr a; PStr b; PInt z] ++ enzyme_columns ep b z) :: site_rows ep rows.
Proof. intros Hz. unfold site_rows. simpl. by rewrite Hz. Qed.

Lemma site_rows_skip (ep : index) row rows :
  length row ≠ 3%nat → site_rows ep (row :: rows) = site_rows ep rows.
Proof. intros H3. by destruct row as [|? [|? [|? [|? ?]]]]. Qed.

(** The loop of [calculate_distances], from any accumulator. *)
Lemma calculate_distances_loop (ep : index) (rows : list (list string)) :
  ∀ acc w results w',
    foldM (calculate_distances_row ep) acc rows w = (Ok results, w') →
    results = acc ++ site_rows ep rows.
Proof.
  induction rows as [|row rows IH]; intros acc w results w' Hrun.
  - simpl in Hrun. injection Hrun as <- <-. by rewrite app_nil_r.
  - simpl in Hrun. apply bind_inv_Ok in Hrun as (acc1 & w1 & Hrow & Hrun).
    apply IH in Hrun as ->.
    destruct (decide (length row = 3%nat)) as [H3|H3].
    + apply three_fields in H3 as (s & c & p & ->).
      simpl in Hrow. unfold bind in Hrow. rewrite int_str_run in Hrow.
      destruct (py_int p) as [z|] eqn:Hp; [|done].
      injection Hrow as <- <-.
      by rewrite (site_rows_valid _ _ _ _ _ _ Hp), <- app_assoc.
    + rewrite calculate_distances_row_skip in Hrow by done.
      injection Hrow as <- <-. by rewrite site_rows_skip.
Qed.

Lemma calculate_distances_Ok ep f rows w results w' :
  files w !! f = Some rows →
  calculate_distances ep f w = (Ok results, w') →
  results = site_rows ep rows.
Proof.
  intros Hf Hrun. unfold calculate_distances in Hrun.
  apply bind_inv_Ok in Hrun as (rows' & w1 & Hopen & Hrun).
  unfold open_read in Hopen. rewrite Hf in Hopen. injection Hopen as <- <-.
  by apply calculate_distances_loop in Hrun.
Qed.

Lemma elem_of_site_rows (ep : index) (rows : list (list string)) (row_data : list pyval) :
  row_data ∈ site_rows ep rows ↔
  ∃ site_id chromosome position p,
    [site_id; chromosome; position] ∈ rows ∧ py_int position = Some p
    ∧ row_data = [PStr site_id; PStr chromosome; PInt p]
                 ++ enzyme_columns ep chromosome p.
Proof.
  unfold site_rows. rewrite list_elem_of_In, in_flat_map. split.
  - intros (row & Hrow & Hdata). apply list_elem_of_In in Hrow.
    destruct row as [|s [|c [|p [|? ?]]]]; simpl in Hdata; try done.
    destruct (py_int p) as [z|] eqn:Hp; [|done].
    destruct Hdata as [<-|[]]. by exists s, c, p, z.
  - intros (s & c & p & z & Hrow & Hp & ->). exists [s; c; p].
    split; [by apply list_elem_of_In|]. rewrite Hp. by left.
Qed.

(** ** The sentinel, from the writer of stage 1 to the test of stage 2 *)

Lemma str_of_Z_not_sentinel (z : Z) : str_of_Z z ≠ "N/A" ∧ str_of_Z z ≠ "".
Proof.
  unfold str_of_Z, NilZero.string_of_int.
  destruct (Z.to_int z) as [u|u]; [|split; discriminate].
  destruct u; split; discriminate.
Qed.

(** Where the enzyme loop puts the name and the two distances of the
    [j]-th enzyme of the index. *)
Lemma enzyme_columns_lookup (ep : index) (chromosome : string) (position : Z)
    (j : nat) (enzyme : string) (chroms : odict string (list Z)) :
  ep !! j = Some (enzyme, chroms) →
  enzyme_columns ep chromosome position !! (3 * j)%nat = Some (PStr enzyme)
  ∧ enzyme_columns ep chromosome position !! (1 + 3 * j)%nat
    = Some (enzyme_distances chroms chromosome position).1
  ∧ enzyme_columns ep chromosome position !! (2 + 3 * j)%nat
    = Some (enzyme_distances chroms chromosome position).2.
Proof.
  revert j. induction ep as [|[e0 c0] ep IH]; intros j Hj; [done|].
  assert (enzyme_columns ((e0, c0) :: ep) chromosome position
          = [PStr e0; (enzyme_distances c0 chromosome position).1;
             (enzyme_distances c0 chromosome position).2]
            ++ enzyme_columns ep chromosome position) as ->.
  { unfold enzyme_columns. simpl.
    by destruct (enzyme_distances c0 chromosome position). }
  destruct j as [|j].
  - simpl in Hj. injection Hj as -> ->. done.
  - simpl in Hj. destruct (IH j Hj) as (H0 & H1 & H2).
    replace (3 * S j)%nat with (3 + 3 * j)%nat by lia.
    replace (1 + (3 + 3 * j))%nat with (3 + (1 + 3 * j))%nat by lia.
    replace (2 + (3 + 3 * j))%nat with (3 + (2 + 3 * j))%nat by lia.
    split; [exact H0|]. split; [exact H1|exact H2].
Qed.

(** A [calc-distances] run that ends normally: the index was read, every
    three-field row of the integration file has an integer position, and
    the output file holds the table of the site rows. *)
Lemma main_calc_distances_Ok ef if_ out (I : list (list string)) w w' :
  main (CalcDistances ef if_ out) w = (Ok (), w') →
  files w !! if_ = Some I →
  ∃ idx,
    (read_enzyme_positions ef w).1 = Ok idx
    ∧ (∀ site_id chromosome position,
         [site_id; chromosome; position] ∈ I → is_Some (py_int position))
    ∧ files w' = if site_rows idx I is [] then files w
                 else <[out := results_table (site_rows idx I)]> (files w).
Proof.
  intros Hrun HI. simpl in Hrun.
  apply bind_inv_Ok in Hrun as (idx & w1 & Hread & Hrun).
  apply bind_inv_Ok in Hrun as (results & w2 & Hcalc & Hwrite).
  pose proof (read_enzyme_positions_files ef w) as Hf1.
  rewrite Hread in Hf1. simpl in Hf1.
  pose proof (calculate_distances_files idx if_ w1) as Hf2.
  rewrite Hcalc in Hf2. simpl in Hf2.
  assert (files w1 !! if_ = Some I) as HI1 by (by rewrite Hf1).
  exists idx. split; [by rewrite Hread|]. split.
  - intros s c p Hrow. destruct (py_int p) eqn:Hp; [done|].
    pose proof (stage1_loop_raises (calculate_distances_row idx) WarnIntegrationRow
                  (calculate_distances_row_three idx) (calculate_distances_row_skip idx)
                  I s c p [] w1 Hrow Hp) as Hraise.
    unfold calculate_distances, bind, open_read in Hcalc. rewrite HI1 in Hcalc.
    by rewrite Hcalc in Hraise.
  - apply (calculate_distances_Ok _ _ _ _ _ _ HI1) in Hcalc as ->.
    rewrite write_results_run in Hwrite. injection Hwrite as <-. simpl.
    rewrite Hf2, Hf1. by destruct (site_rows idx I).
Qed.

(** C5.  The token is one and the same on both sides.  Stage 1 stores the
    string ["N/A"] for a distance that does not exist — no position on that
    side, or the chromosome unknown for the enzyme — and an integer
    otherwise.  In the file a [calc-distances] run writes, every three-field
    row of the integration file has its line, and on that line the [j]-th
    enzyme of the index has its name in field [3 + 3 j] and its two
    distances in the next two fields: a field is ["N/A"] exactly when the
    distance does not exist, the decimal distance otherwise, and never
    empty.  Stage 2, once a column is chosen and the row has a string there,
    returns the sentinel exactly when that string is ["N/A"], and that is
    what the record of the row stores.  (The specification calls the token
    "not available".  Under which column name a field of the written line is
    read back is another matter: the header has two names per enzyme where
    the line has three fields.) *)
Theorem sentinel_token_shared :
  (∀ (chroms : odict string (list Z)) chromosome position,
     let located :=
       (λ positions, find_closest positions position) <$> od_get chromosome chroms in
     let distances := enzyme_distances chroms chromosome position in
     (distances.1 = PStr "N/A" ↔ (located ≫= fst) = None)
     ∧ (distances.2 = PStr "N/A" ↔ (located ≫= snd) = None)
     ∧ (∀ u, located ≫= fst = Some u → distances.1 = PInt (position - u))
     ∧ (∀ d, located ≫= snd = Some d → distances.2 = PInt (d - position)))
  ∧ (∀ ef if_ out w w' (I : list (list string)) site_id chromosome position,
       main (CalcDistances ef if_ out) w = (Ok (), w') →
       files w !! if_ = Some I →
       [site_id; chromosome; position] ∈ I →
       ∃ idx p lines line,
         (read_enzyme_positions ef w).1 = Ok idx
         ∧ py_int position = Some p
         ∧ files w' !! out
           = Some (results_header ((λ item, PStr item.1) <$> idx) :: lines)
         ∧ line ∈ lines
         ∧ take 3 line = [site_id; chromosome; str_of_Z p]
         ∧ length line = (3 + 3 * length idx)%nat
         ∧ ∀ (j : nat) enzyme chroms, idx !! j = Some (enzyme, chroms) →
             let located :=
               (λ positions, find_closest positions p) <$> od_get chromosome chroms in
             ∃ up down,
               line !! (3 + 3 * j)%nat = Some enzyme
               ∧ line !! (4 + 3 * j)%nat = Some up
               ∧ line !! (5 + 3 * j)%nat = Some down
               ∧ (up = "N/A" ↔ located ≫= fst = None)
               ∧ (down = "N/A" ↔ located ≫= snd = None)
               ∧ (∀ u, located ≫= fst = Some u → up = str_of_Z (p - u))
               ∧ (∀ d, located ≫= snd = Some d → down = str_of_Z (d - p))
               ∧ up ≠ "" ∧ down ≠ "")
  ∧ (∀ row site_directions enzyme offsets direction_type w key v,
       dist_key enzyme
         (default (Some "") (site_directions !! direction_key enzyme direction_type))
       = Some key →
       row !! key = Some (Some v) →
       (final_distance row site_directions enzyme offsets direction_type w
        = (Ok (PStr "N/A"), w)
        ↔ v = "N/A"))
  ∧ (∀ distances_file directions (lengths : lengths_t) rows finals fieldnames w w'
       (i : nat) row site_id enzyme offsets direction_type key v,
       calculate_final_distances distances_file directions lengths w
       = (Ok (finals, fieldnames), w') →
       NoDup ((λ item, py_str (of_cell item.1)) <$> lengths) →
       files w !! distances_file = Some rows →
       DictReader rows !! i = Some row →
       row !! "IntegrationSite#" = Some site_id →
       (enzyme, offsets) ∈ lengths → direction_type ∈ ["L"; "H"] →
       dist_key enzyme
         (default (Some "") (default ∅ (directions !! site_id)
                             !! direction_key enzyme direction_type))
       = Some key →
       row !! key = Some (Some v) →
       ∃ new_row,
         finals !! i = Some new_row
         ∧ (new_row !! direction_key enzyme direction_type = Some (PStr "N/A")
            ↔ v = "N/A")).
Proof.
  assert (∀ (chroms : odict string (list Z)) chromosome position,
     let located :=
       (λ positions, find_closest positions position) <$> od_get chromosome chroms in
     let distances := enzyme_distances chroms chromosome position in
     (distances.1 = PStr "N/A" ↔ (located ≫= fst) = None)
     ∧ (distances.2 = PStr "N/A" ↔ (located ≫= snd) = None)
     ∧ (∀ u, located ≫= fst = Some u → distances.1 = PInt (position - u))
     ∧ (∀ d, located ≫= snd = Some d → distances.2 = PInt (d - position)))
    as Hvalues.
  { intros chroms chromosome position located distances.
    subst located distances. unfold enzyme_distances.
    destruct (od_get chromosome chroms) as [positions|]; simpl; [|done].
    destruct (find_closest positions position) as [[u|] [d|]]; simpl;
      repeat split; intros; simplify_eq; done. }
  assert (∀ row site_directions enzyme offsets direction_type w key v,
       dist_key enzyme
         (default (Some "") (site_directions !! direction_key enzyme direction_type))
       = Some key →
       row !! key = Some (Some v) →
       (final_distance row site_directions enzyme offsets direction_type w
        = (Ok (PStr "N/A"), w)
        ↔ v = "N/A")) as Htest.
  { intros row sd enzyme offsets dt w key v Hkey Hrow.
    unfold final_distance. rewrite Hkey, Hrow.
    rewrite (bool_decide_eq_true_2 (key ≠ "")) by (by eapply dist_key_nonempty).
    simpl. destruct (decide (v = "N/A")) as [->|Hv].
    + by rewrite bool_decide_eq_false_2 by tauto.
    + rewrite bool_decide_eq_true_2 by congruence.
      split; [|done]. unfold bind, int_cell, int_str, getitem, ret, raise.
      repeat (case_match; simplify_eq/=; try done). }
  split; [exact Hvalues|]. split; [|split; [exact Htest|]].
  - intros ef if_ out w w' I s c position Hrun HI Hrow.
    destruct (main_calc_distances_Ok _ _ _ _ _ _ Hrun HI) as (idx & Hidx & Hint & Hfiles).
    destruct (Hint s c position Hrow) as [p Hp].
    assert ([PStr s; PStr c; PInt p] ++ enzyme_columns idx c p ∈ site_rows idx I)
      as Hsite.
    { apply elem_of_site_rows. by exists s, c, position, p. }
    exists idx, p, (map (map csv_field) (site_rows idx I)),
           (map csv_field ([PStr s; PStr c; PInt p] ++ enzyme_columns idx c p)).
    split; [done|]. split; [done|]. split; [|split; [|split; [|split]]].
    + rewrite Hfiles.
      destruct (site_rows idx I) as [|first rest] eqn:Hrows; [by inversion Hsite|].
      rewrite lookup_insert_eq. unfold results_table. simpl. do 3 f_equal.
      assert (first ∈ site_rows idx I) as Hfirst by (rewrite Hrows; by left).
      apply elem_of_site_rows in Hfirst as (s0 & c0 & p0 & z0 & _ & _ & ->).
      simpl. apply enzyme_columns_every_third.
    + apply list_elem_of_In, in_map, list_elem_of_In, Hsite.
    + done.
    + rewrite length_map, length_app, enzyme_columns_length. simpl. lia.
    + intros j enzyme chroms Hj located.
      destruct (enzyme_columns_lookup idx c p j enzyme chroms Hj) as (H0 & H1 & H2).
      destruct (Hvalues chroms c p) as (Hup & Hdown & Hupv & Hdownv).
      fold located in Hup, Hdown, Hupv, Hdownv.
      exists (csv_field (enzyme_distances chroms c p).1),
             (csv_field (enzyme_distances chroms c p).2).
      assert (∀ k v, enzyme_columns idx c p !! k = Some v →
                map csv_field ([PStr s; PStr c; PInt p] ++ enzyme_columns idx c p)
                !! (3 + k)%nat = Some (csv_field v)) as Hfield.
      { intros k v Hk. change (map csv_field ?l) with (csv_field <$> l).
        rewrite list_lookup_fmap. simpl. by rewrite Hk. }
      split; [exact (Hfield _ _ H0)|].
      split; [exact (Hfield _ _ H1)|].
      split; [exact (Hfield _ _ H2)|].
      destruct (located ≫= fst) as [u|] eqn:Hlu;
        destruct (located ≫= snd) as [d|] eqn:Hld.
      * rewrite (Hupv u eq_refl), (Hdownv d eq_refl). simpl.
        pose proof (str_of_Z_not_sentinel (p - u)) as [? ?].
        pose proof (str_of_Z_not_sentinel (d - p)) as [? ?].
        repeat split; intros; simplify_eq; done.
      * rewrite (Hupv u eq_refl), (proj2 Hdown eq_refl). simpl.
        pose proof (str_of_Z_not_sentinel (p - u)) as [? ?].
        repeat split; intros; simplify_eq; done.
      * rewrite (proj2 Hup eq_refl), (Hdownv d eq_refl). simpl.
        pose proof (str_of_Z_not_sentinel (d - p)) as [? ?].
        repeat split; intros; simplify_eq; done.
      * rewrite (proj2 Hup eq_refl), (proj2 Hdown eq_refl). simpl.
        repeat split; intros; simplify_eq; done.
  - intros df directions lengths rows finals fieldnames w w' i row site_id enzyme
           offsets dt key v Hrun Hnd Hdf Hrow Hsite Hitem Hdt Hkey Hcell.
    apply calculate_final_distances_run in Hrun as (-> & rows' & Hdf' & Hrecs & _).
    rewrite Hdf in Hdf'. injection Hdf' as <-.
    destruct (Forall2_lookup_l _ _ _ _ _ Hrecs Hrow) as (new_row & Hrec & Hrr).
    destruct (row_record_entry _ _ _ _ _ _ _ _ Hrr Hitem Hdt) as [_ Hentry].
    destruct (Hentry Hnd site_id Hsite) as (x & Hx & Hfinal).
    exists new_row. split; [done|].
    rewrite <- (Htest row (default ∅ (directions !! site_id)) enzyme offsets dt w
                  key v Hkey Hcell).
    rewrite Hx, Hfinal. split; intros; simplify_eq; done.
Qed.

(** X3.  The result of [calculate_distances], when it ends normally, has
    one row per three-field row of the integration file, in file order.
    Every row is the site, the chromosome and the parsed position followed
    by three values per enzyme of the index, and the enzyme names read off
    any row at every third place are the enzymes of the index in order: the
    header that [write_results] derives from the first row is the header of
    every row. *)
Theorem calculate_distances_rows (ep : index) (f : string)
    (rows : list (list string)) (w w' : world) (results : list (list pyval)) :
  files w !! f = Some rows →
  calculate_distances ep f w = (Ok results, w') →
  results = site_rows ep rows
  ∧ length results = length (filter (λ r, length r = 3%nat) rows)
  ∧ (∀ row_data, row_data ∈ results →
       length row_data = (3 + 3 * length ep)%nat
       ∧ every_third (drop 3 row_data) = map (PStr ∘ fst) ep
       ∧ results_header (every_third (drop 3 row_data))
         = results_header (map (PStr ∘ fst) ep)).
Proof.
  intros Hf Hrun.
  assert (∀ a b c, [a; b; c] ∈ rows → is_Some (py_int c)) as Hparse.
  { intros a b c Hin. destruct (py_int c) eqn:Hc; [done|].
    pose proof (stage1_loop_raises (calculate_distances_row ep) WarnIntegrationRow
                  (calculate_distances_row_three ep) (calculate_distances_row_skip ep)
                  rows a b c [] w Hin Hc) as Hraise.
    unfold calculate_distances, bind, open_read in Hrun. rewrite Hf in Hrun.
    by rewrite Hrun in Hraise. }
  apply (calculate_distances_Ok _ _ _ _ _ _ Hf) in Hrun as ->.
  split; [done|]. split.
  - clear Hf. induction rows as [|row rows IH]; [done|].
    assert (∀ a b c, [a; b; c] ∈ rows → is_Some (py_int c)) as Hparse'.
    { intros a b c Hin. apply (Hparse a b c). by right. }
    destruct (decide (length row = 3%nat)) as [H3|H3].
    + rewrite filter_cons_True by done.
      apply three_fields in H3 as (a & b & c & ->).
      destruct (Hparse a b c) as [z Hz]; [by left|].
      rewrite (site_rows_valid _ _ _ _ _ _ Hz). simpl. by rewrite IH.
    + rewrite filter_cons_False by done. rewrite site_rows_skip by done.
      by apply IH.
  - intros row_data (s & c & p & z & _ & _ & ->)%elem_of_site_rows.
    change (drop 3 _) with (enzyme_columns ep c z).
    rewrite enzyme_columns_every_third. split; [|done].
    rewrite length_app, enzyme_columns_length. done.
Qed.

(** X4.  Stage 1 never reports a distance that is zero or negative: every
    integer after the three identity values of a result row is strictly
    positive, whether or not the position lists of the index are sorted. *)
Theorem calculate_distances_positive (ep : index) (f : string)
    (rows : list (list string)) (w w' : world) (results : list (list pyval)) :
  files w !! f = Some rows →
  calculate_distances ep f w = (Ok results, w') →
  ∀ row_data n, row_data ∈ results → PInt n ∈ drop 3 row_data → 0 < n.
Proof.
  intros Hf Hrun row_data n Hrow Hn.
  apply (calculate_distances_Ok _ _ _ _ _ _ Hf) in Hrun as ->.
  apply elem_of_site_rows in Hrow as (s & c & p & z & _ & _ & ->).
  change (drop 3 _) with (enzyme_columns ep c z) in Hn.
  apply enzyme_columns_elem_of in Hn as (enzyme & chroms & _ & Hv).
  destruct (enzyme_distances_positive chroms c z n) as [Hup Hdown].
  destruct Hv as [?|[Hv|Hv]]; [done|by apply Hup|by apply Hdown].
Qed.

(** ** Stage 1 end to end *)

Lemma od_get_elem_of {K V} `{EqDecision K} (d : odict K V) (k : K) (v : V) :
  NoDup (map fst d) → (k, v) ∈ d → od_get k d = Some v.
Proof.
  induction d as [|[k0 v0] d IH]; intros Hnd Hin; [by apply elem_of_nil in Hin|].
  simpl in Hnd. apply NoDup_cons in Hnd as [Hk0 Hnd]. simpl.
  apply elem_of_cons in Hin as [[= -> ->]|Hin].
  - by case_decide.
  - case_decide as Heq; [|by apply IH]. subst k0. exfalso. apply Hk0.
    apply list_elem_of_fmap. by exists (k, v).
Qed.

Lemma greatest_below_ext (P Q : list Z) (t : Z) (u : option Z) :
  (∀ x, x ∈ P ↔ x ∈ Q) → greatest_below P t u → greatest_below Q t u.
Proof.
  intros HPQ. destruct u as [x|]; simpl.
  - intros (Hin & Hlt & Hmax). split; [by apply HPQ|]. split; [done|].
    intros y Hy. apply Hmax. by apply HPQ.
  - intros Hno y Hy. apply Hno. by apply HPQ.
Qed.

Lemma least_above_ext (P Q : list Z) (t : Z) (d : option Z) :
  (∀ x, x ∈ P ↔ x ∈ Q) → least_above P t d → least_above Q t d.
Proof.
  intros HPQ. destruct d as [x|]; simpl.
  - intros (Hin & Hlt & Hmin). split; [by apply HPQ|]. split; [done|].
    intros y Hy. apply Hmin. by apply HPQ.
  - intros Hno y Hy. apply Hno. by apply HPQ.
Qed.

(** X5.  The two halves of stage 1 fit: on the index that
    [read_enzyme_positions] returns, the distances computed for an enzyme,
    a chromosome and a position are the distance to the greatest position
    the enzyme file gives below the site and the distance to the least
    position it gives above, each replaced by ["N/A"] when the file has no
    such position (or no row at all for that enzyme and chromosome). *)
Theorem stage1_nearest_sites (f : string) (rows : list (list string))
    (w w' : world) (idx : index) (enzyme : string)
    (chroms : odict string (list Z)) (chromosome : string) (position : Z) :
  files w !! f = Some rows →
  read_enzyme_positions f w = (Ok idx, w') →
  (enzyme, chroms) ∈ idx →
  ∃ u d,
    greatest_below (file_positions rows enzyme chromosome) position u
    ∧ least_above (file_positions rows enzyme chromosome) position d
    ∧ enzyme_distances chroms chromosome position
      = (from_option (λ x, PInt (position - x)) (PStr "N/A") u,
         from_option (λ x, PInt (x - position)) (PStr "N/A") d).
Proof.
  intros Hf Hrun Hin.
  pose proof (read_enzyme_positions_lookup _ _ _ _ _ Hf Hrun enzyme chromosome)
    as Hlook.
  destruct (read_enzyme_positions_keys _ _ _ _ _ Hf Hrun) as [_ Hnd].
  unfold index_lookup in Hlook.
  rewrite (od_get_elem_of _ _ _ Hnd Hin) in Hlook. simpl in Hlook.
  unfold enzyme_distances. rewrite Hlook. unfold encode_positions.
  case_decide as Hnil; simpl.
  - exists None, None. rewrite Hnil. simpl.
    split; [|split; [|done]]; intros y Hy; by apply elem_of_nil in Hy.
  - set (ps := merge_sort Z.le (file_positions rows enzyme chromosome)).
    assert (StronglySorted Z.le ps) as Hs.
    { apply StronglySorted_merge_sort.
      - intros x y z. lia.
      - intros x y. apply Z.le_ge_cases. }
    assert (∀ x, x ∈ ps ↔ x ∈ file_positions rows enzyme chromosome) as Hperm.
    { intros x. subst ps. by rewrite merge_sort_Permutation. }
    pose proof (find_closest_loop_upstream position ps None Hs) as Hup.
    pose proof (find_closest_loop_downstream position ps None Hs) as Hdown.
    unfold find_closest.
    destruct (find_closest_loop ps position None None) as [u d]. simpl in *.
    exists u, d. split; [|split].
    + apply (greatest_below_ext ps); [done|].
      destruct u as [x|]; simpl; [by destruct Hup as [[? _]|?]|by destruct Hup].
    + by apply (least_above_ext ps).
    + by destruct u, d.
Qed.


(** ** The readers of stage 2 *)












(** The loop of [read_directions] over rows that all have the site column. *)
Lemma read_directions_loop (rows : list (gmap string cell)) :
  (∀ row, row ∈ rows → is_Some (row !! "IntegrationSite#")) →
  ∀ acc w, ∃ d,
    foldM read_directions_row acc rows w = (Ok d, w)
    ∧ ∀ s, d !! s = match last_row_with "IntegrationSite#" s rows with
                    | Some row => Some row
                    | None => acc !! s
                    end.
Proof.
  unfold last_row_with.
  induction rows as [|row rows IH]; intros Hrows acc w.
  - exists acc. done.
  - destruct (Hrows row) as [site Hsite]; [by left|].
    destruct (IH (λ r Hr, Hrows r (list_elem_of_further _ _ _ Hr))
                 (<[site := row]> acc) w) as (d & Hrun & Hd).
    exists d. split.
    + simpl. unfold bind, read_directions_row at 1, bind, getitem.
      rewrite Hsite. simpl. exact Hrun.
    + intros s. rewrite Hd.
      destruct (decide (row !! "IntegrationSite#" = Some s)) as [Hs|Hs].
      * rewrite filter_cons_True by done.
        rewrite Hsite in Hs. injection Hs as ->.
        destruct (filter _ rows) as [|r rs] eqn:Hfilter.
        -- apply lookup_insert_eq.
        -- rewrite last_cons_cons.
           assert (is_Some (last (r :: rs))) as [x ->] by (by apply last_is_Some).
           done.
      * rewrite filter_cons_False by done.
        destruct (last _); [done|].
        apply lookup_insert_ne. congruence.
Qed.

(** X7.  [read_directions] cannot fail on a file whose header has the
    ["IntegrationSite#"] column: it returns, for every site identifier, the
    last row of the file with that identifier (earlier rows of the same site
    are replaced), and no entry for an identifier no row has.  On a file
    with no data row it returns the empty dictionary.  On a file whose
    header lacks the column and that has a data row it raises [KeyError].
    In every case the files and standard output are left as they were. *)
Theorem read_directions_sites (f : string) (rows : list (list string)) (w : world) :
  files w !! f = Some rows →
  (DictReader rows = [] → read_directions f w = (Ok ∅, w))
  ∧ (∀ fieldnames data, rows = fieldnames :: data →
       "IntegrationSite#" ∈ fieldnames →
       ∃ d, read_directions f w = (Ok d, w)
            ∧ ∀ s, d !! s = last_row_with "IntegrationSite#" s (DictReader rows))
  ∧ (∀ fieldnames data, rows = fieldnames :: data →
       "IntegrationSite#" ∉ fieldnames → DictReader rows ≠ [] →
       read_directions f w = (Raise KeyError, w)).
Proof.
  intros Hf. unfold read_directions, bind, open_read. rewrite Hf.
  split; [|split].
  - by intros ->.
  - intros fieldnames data -> Hcol.
    destruct (read_directions_loop (DictReader (fieldnames :: data))) with
      (∅ : directions_t) w as (d & Hrun & Hd).
    { intros row Hrow. by apply (DictReader_is_Some _ _ _ _ Hrow). }
    exists d. split; [done|]. intros s. rewrite Hd, lookup_empty.
    by destruct (last_row_with _ _ _).
  - intros fieldnames data -> Hcol Hrows.
    destruct (DictReader (fieldnames :: data)) as [|row rs] eqn:Hreader; [done|].
    assert (row !! "IntegrationSite#" = None) as Hnone.
    { apply eq_None_not_Some. intros Hsome. apply Hcol.
      apply (DictReader_is_Some fieldnames data row); [|done].
      rewrite Hreader. by left. }
    simpl. unfold bind, read_directions_row at 1, bind, getitem.
    by rewrite Hnone.
Qed.

Lemma read_fragment_lengths_row_Ok acc row w acc' w' :
  read_fragment_lengths_row acc row w = (Ok acc', w') →
  ∃ name offsets,
    row !! "Name" = Some name ∧ row_offsets row = Some offsets
    ∧ acc' = od_set name offsets acc ∧ w' = w.
Proof.
  unfold read_fragment_lengths_row, row_offsets. intros H.
  apply bind_inv_Ok in H as (name & w1 & Hname & H).
  apply bind_inv_Ok in H as (cl & w2 & Hcl & H).
  apply bind_inv_Ok in H as (l & w3 & Hl & H).
  apply bind_inv_Ok in H as (ch & w4 & Hch & H).
  apply bind_inv_Ok in H as (h & w5 & Hh & H).
  unfold getitem in Hname, Hcl, Hch.
  destruct (row !! "Name") as [n|]; [|done].
  destruct (row !! "L") as [cl'|]; [|done].
  destruct (row !! "H") as [ch'|]; [|done].
  injection Hname as <- <-. injection Hcl as <- <-. injection Hch as <- <-.
  unfold int_cell, int_str in Hl, Hh.
  destruct cl' as [sl|]; [|done]. destruct ch' as [sh|]; [|done]. simpl.
  destruct (py_int sl) as [zl|]; [|done]. destruct (py_int sh) as [zh|]; [|done].
  injection Hl as <- <-. injection Hh as <- <-. injection H as <- <-.
  by exists n, {[ "L" := zl; "H" := zh ]}.
Qed.

Lemma read_fragment_lengths_loop (rows : list (gmap string cell)) :
  ∀ acc w lengths w',
    foldM read_fragment_lengths_row acc rows w = (Ok lengths, w') →
    w' = w
    ∧ (∀ name, od_get name lengths
               = match last_row_with "Name" name rows with
                 | Some row => row_offsets row
                 | None => od_get name acc
                 end)
    ∧ map fst lengths
      = foldl (λ seen x, if decide (x ∈ seen) then seen else seen ++ [x])
              (map fst acc) (omap (λ row, row !! "Name") rows).
Proof.
  unfold last_row_with.
  induction rows as [|row rows IH]; intros acc w lengths w' Hrun.
  - simpl in Hrun. by injection Hrun as <- <-.
  - simpl in Hrun. apply bind_inv_Ok in Hrun as (acc1 & w1 & Hrow & Hrun).
    apply read_fragment_lengths_row_Ok in Hrow
      as (name & offsets & Hname & Hoffsets & -> & ->).
    apply IH in Hrun as (-> & Hget & Hkeys). split; [done|]. split.
    + intros n. rewrite Hget.
      destruct (decide (row !! "Name" = Some n)) as [Hn|Hn].
      * rewrite filter_cons_True by done.
        rewrite Hname in Hn. injection Hn as ->.
        destruct (filter _ rows) as [|r rs] eqn:Hfilter.
        -- simpl. by rewrite od_get_set_eq.
        -- rewrite last_cons_cons.
           assert (is_Some (last (r :: rs))) as [x ->] by (by apply last_is_Some).
           done.
      * rewrite filter_cons_False by done.
        destruct (last _); [done|].
        apply od_get_set_ne. congruence.
    + rewrite Hkeys. simpl. rewrite Hname. simpl. by rewrite od_set_keys.
Qed.

(** X8.  The Fragment Length Spec of a run of [read_fragment_lengths] that
    ends normally: files and standard output are untouched; the enzymes
    are the distinct [Name] cells of the file in the order of their first
    rows, none twice; the offsets of an enzyme are those of the last row
    with its name; and every enzyme has exactly the two offsets ["L"] and
    ["H"], so that the lookups [lengths[enzyme][direction_type]] of
    [calculate_final_distances] are always answered. *)
Theorem read_fragment_lengths_spec (f : string) (rows : list (list string))
    (w w' : world) (lengths : lengths_t) :
  files w !! f = Some rows →
  read_fragment_lengths f w = (Ok lengths, w') →
  w' = w
  ∧ map fst lengths = first_seen (omap (λ row, row !! "Name") (DictReader rows))
  ∧ NoDup (map fst lengths)
  ∧ (∀ name, od_get name lengths
             = last_row_with "Name" name (DictReader rows) ≫= row_offsets)
  ∧ (∀ name offsets, (name, offsets) ∈ lengths →
       ∃ l h, offsets = {[ "L" := l; "H" := h ]}
              ∧ offsets !! "L" = Some l ∧ offsets !! "H" = Some h).
Proof.
  intros Hf Hrun. unfold read_fragment_lengths in Hrun.
  apply bind_inv_Ok in Hrun as (rows' & w1 & Hopen & Hrun).
  unfold open_read in Hopen. rewrite Hf in Hopen. injection Hopen as <- <-.
  apply read_fragment_lengths_loop in Hrun as (-> & Hget & Hkeys).
  assert (NoDup (map fst lengths)) as Hnd.
  { rewrite Hkeys. apply first_seen_from_NoDup. constructor. }
  assert (∀ name, od_get name lengths
                  = last_row_with "Name" name (DictReader rows) ≫= row_offsets)
    as Hget'.
  { intros name. rewrite Hget. by destruct (last_row_with _ _ _). }
  split; [done|]. split; [done|]. split; [done|]. split; [done|].
  intros name offsets Hin.
  pose proof (od_get_elem_of _ _ _ Hnd Hin) as Hoff. rewrite Hget' in Hoff.
  destruct (last_row_with "Name" name (DictReader rows)) as [row|]; [|done].
  simpl in Hoff. unfold row_offsets in Hoff.
  destruct (row !! "L" ≫= _) as [l|]; [|done].
  destruct (row !! "H" ≫= _) as [h|]; [|done].
  simpl in Hoff. injection Hoff as <-. exists l, h. done.
Qed.

(** ** The records and the output of stage 2 *)


Lemma row_record_keys (lengths : lengths_t) w row kvs site_directions :
  Forall2 (λ p kv, kv.1 = direction_key p.1.1 p.2
                   ∧ final_distance row site_directions p.1.1 p.1.2 p.2 w
                     = (Ok kv.2, w))
          (spec_pairs lengths) kvs →
  kvs.*1 = (λ p, direction_key p.1.1 p.2) <$> spec_pairs lengths.
Proof.
  intros Hkvs.
  induction Hkvs as [|p kv ps kvs [Hk _] _ IH]; [done|].
  rewrite !fmap_cons. by f_equal.
Qed.








(** ** Missing keys in stage 2 *)

Lemma final_distance_no_directions row enzyme offsets dt w :
  final_distance row ∅ enzyme offsets dt w = (Ok (PStr "N/A"), w).
Proof.
  unfold final_distance. rewrite lookup_empty. simpl. unfold dist_key.
  by repeat case_decide.
Qed.

Lemma calculate_final_distances_row_record df directions lengths w finals fieldnames
    w' rows i row new_row :
  calculate_final_distances df directions lengths w = (Ok (finals, fieldnames), w') →
  files w !! df = Some rows →
  DictReader rows !! i = Some row → finals !! i = Some new_row →
  row_record directions lengths w row new_row.
Proof.
  intros Hrun Hdf Hrow Hrec.
  apply calculate_final_distances_run in Hrun as (-> & rows' & Hdf' & Hrecs & _).
  rewrite Hdf in Hdf'. injection Hdf' as <-.
  destruct (Forall2_lookup_l _ _ _ _ _ Hrecs Hrow) as (new_row' & Hrec' & Hrr).
  rewrite Hrec in Hrec'. by injection Hrec' as <-.
Qed.

(** X11.  A site that the directions table does not list gets the sentinel
    for every enzyme and offset, whatever its distance cells hold: on a run
    of [calculate_final_distances] that ends normally, the record of a row
    whose site identifier is not a key of [directions] has ["N/A"] under
    every composite name of the Spec. *)
Theorem unknown_site_not_available (distances_file : string)
    (directions : directions_t) (lengths : lengths_t) (w w' : world)
    (finals : list record) (fieldnames : list string) (rows : list (list string))
    (i : nat) (row : gmap string cell) (new_row : record) (site_id : cell) :
  calculate_final_distances distances_file directions lengths w
  = (Ok (finals, fieldnames), w') →
  files w !! distances_file = Some rows →
  DictReader rows !! i = Some row → finals !! i = Some new_row →
  row !! "IntegrationSite#" = Some site_id →
  directions !! site_id = None →
  ∀ enzyme offsets direction_type,
    (enzyme, offsets) ∈ lengths → direction_type ∈ ["L"; "H"] →
    new_row !! direction_key enzyme direction_type = Some (PStr "N/A").
Proof.
  intros Hrun Hdf Hrow Hrec Hsite Hunknown enzyme offsets dt Hitem Hdt.
  destruct (calculate_final_distances_row_record _ _ _ _ _ _ _ _ _ _ _
              Hrun Hdf Hrow Hrec)
    as (site_id' & chromosome & position & kvs & Hs & _ & _ & Hkvs & ->).
  rewrite Hsite in Hs. injection Hs as <-. rewrite Hunknown in Hkvs. simpl in Hkvs.
  destruct (assign_all_lookup_in
              (<["Position" := of_cell position]>
                 (<["Chromosome" := of_cell chromosome]>
                    {[ "IntegrationSite#" := of_cell site_id ]}))
              kvs (direction_key enzyme dt)) as (v & -> & Hkv).
  { rewrite (row_record_keys _ _ _ _ _ Hkvs). apply list_elem_of_fmap.
    exists (enzyme, offsets, dt). split; [done|]. by apply elem_of_spec_pairs. }
  apply list_elem_of_lookup in Hkv as [j Hj].
  destruct (Forall2_lookup_r _ _ _ _ _ Hkvs Hj) as (p & _ & _ & Hfinal).
  rewrite final_distance_no_directions in Hfinal. simpl in Hfinal. congruence.
Qed.

Lemma direction_key_not_identity enzyme dt :
  dt ∈ ["L"; "H"] → direction_key enzyme dt ∉ identity_columns.
Proof.
  intros Hdt Hin. unfold identity_columns in Hin.
  assert (∀ prefix a b,
            direction_key enzyme dt = prefix +:+ String a (String b "") →
            a = "_"%char) as Hlast.
  { intros prefix a b Heq. unfold direction_key in Heq.
    apply (f_equal list_ascii_of_string) in Heq.
    rewrite !list_ascii_of_string_app in Heq.
    apply app_inj_2 in Heq as [_ Heq].
    - simpl in Heq. congruence.
    - rewrite !elem_of_cons, elem_of_nil in Hdt.
      by destruct Hdt as [->|[->|[]]]. }
  rewrite !elem_of_cons, elem_of_nil in Hin.
  destruct Hin as [Hk|[Hk|[Hk|[]]]].
  - by specialize (Hlast "IntegrationSit" _ _ Hk).
  - by specialize (Hlast "Chromoso" _ _ Hk).
  - by specialize (Hlast "Positi" _ _ Hk).
Qed.

(** X12.  The three identity columns are copied through: on a run of
    [calculate_final_distances] that ends normally the record of a row holds
    the row's own site identifier, chromosome and position, as read.  No
    composite name can collide with an identity column, whatever the enzyme
    names, so these entries are never overwritten. *)
Theorem identity_columns_copied (distances_file : string)
    (directions : directions_t) (lengths : lengths_t) (w w' : world)
    (finals : list record) (fieldnames : list string) (rows : list (list string))
    (i : nat) (row : gmap string cell) (new_row : record) :
  calculate_final_distances distances_file directions lengths w
  = (Ok (finals, fieldnames), w') →
  files w !! distances_file = Some rows →
  DictReader rows !! i = Some row → finals !! i = Some new_row →
  ∀ k, k ∈ identity_columns →
       is_Some (row !! k) ∧ new_row !! k = of_cell <$> row !! k.
Proof.
  intros Hrun Hdf Hrow Hrec k Hk.
  destruct (calculate_final_distances_row_record _ _ _ _ _ _ _ _ _ _ _
              Hrun Hdf Hrow Hrec)
    as (site_id & chromosome & position & kvs & Hs & Hc & Hp & Hkvs & ->).
  rewrite assign_all_lookup_notin.
  - unfold identity_columns in Hk. rewrite !elem_of_cons, elem_of_nil in Hk.
    destruct Hk as [->|[->|[->|[]]]].
    + rewrite Hs. split; [done|]. by rewrite !lookup_insert_ne, lookup_singleton_eq.
    + rewrite Hc. split; [done|]. by rewrite lookup_insert_ne, lookup_insert_eq.
    + rewrite Hp. split; [done|]. by rewrite lookup_insert_eq.
  - rewrite (row_record_keys _ _ _ _ _ Hkvs).
    intros ([[e o] dt] & -> & Hpair)%list_elem_of_fmap.
    apply elem_of_spec_pairs in Hpair as [_ Hdt].
    by apply (direction_key_not_identity e dt).
Qed.

(** X13.  A distances table whose header lacks one of the three identity
    columns cannot be processed: as soon as it has a data row,
    [calculate_final_distances] raises [KeyError] on the first one, before
    any distance is looked at, and nothing is written or printed. *)
Theorem missing_identity_column (distances_file : string) (directions : directions_t)
    (lengths : lengths_t) (w : world) (fieldnames : list string)
    (data : list (list string)) (k : string) :
  files w !! distances_file = Some (fieldnames :: data) →
  DictReader (fieldnames :: data) ≠ [] →
  k ∈ identity_columns → k ∉ fieldnames →
  calculate_final_distances distances_file directions lengths w = (Raise KeyError, w)
  ∧ ∀ lengths_file directions_file output l d,
      read_fragment_lengths lengths_file w = (Ok l, w) →
      read_directions directions_file w = (Ok d, w) →
      main (FinalizeDistances lengths_file directions_file distances_file output) w
      = (Raise KeyError, w).
Proof.
  intros Hdf Hrows Hk Hmissing.
  assert (∀ directions lengths,
            calculate_final_distances distances_file directions lengths w
            = (Raise KeyError, w)) as Hcalc.
  { clear directions lengths. intros directions lengths.
    unfold calculate_final_distances, bind at 1, open_read. rewrite Hdf.
    destruct (DictReader (fieldnames :: data)) as [|row rs] eqn:Hreader; [done|].
    assert (row !! k = None) as Hnone.
    { apply eq_None_not_Some. intros Hsome. apply Hmissing.
      apply (DictReader_is_Some fieldnames data row); [|done].
      rewrite Hreader. by left. }
    simpl. unfold bind, calculate_final_distances_row, bind, getitem.
    unfold identity_columns in Hk. rewrite !elem_of_cons, elem_of_nil in Hk.
    destruct (row !! "IntegrationSite#") eqn:Hs; [|done].
    destruct (row !! "Chromosome") eqn:Hc; [|done].
    destruct (row !! "Position") eqn:Hp; [|done].
    destruct Hk as [->|[->|[->|[]]]]; congruence. }
  split; [apply Hcalc|].
  intros lf dirf output l d Hl Hd. simpl.
  rewrite (bind_Ok _ _ _ _ _ Hl), (bind_Ok _ _ _ _ _ Hd).
  by rewrite (bind_Raise _ _ _ _ _ (Hcalc d l)).
Qed.

(** ** The two commands *)

(** X14.  The header of the table that [calc-distances] writes.  When the
    run ends normally and the integration file has a row of three fields,
    the output file starts with the three identity columns followed, for
    every enzyme, by its upstream and its downstream column, the enzymes
    being the distinct enzyme names of the enzyme file in the order of
    their first rows; the rows that follow are the result rows, one per
    valid site. *)
Theorem calc_distances_header (enzyme_file integration_file output : string)
    (E I : list (list string)) (w w' : world) :
  files w !! enzyme_file = Some E →
  files w !! integration_file = Some I →
  main (CalcDistances enzyme_file integration_file output) w = (Ok (), w') →
  (∃ site_id chromosome position, [site_id; chromosome; position] ∈ I) →
  ∃ idx,
    (read_enzyme_positions enzyme_file w).1 = Ok idx
    ∧ files w' !! output
      = Some (results_header (map PStr (first_seen (first_fields E)))
              :: map (map csv_field) (site_rows idx I)).
Proof.
  intros HE HI Hrun (s & c & p & Hrow). simpl in Hrun.
  apply bind_inv_Ok in Hrun as (idx & w1 & Hread & Hrun).
  apply bind_inv_Ok in Hrun as (results & w2 & Hcalc & Hwrite).
  pose proof (read_enzyme_positions_files enzyme_file w) as Hf1.
  rewrite Hread in Hf1. simpl in Hf1.
  assert (files w1 !! integration_file = Some I) as HI1 by (by rewrite Hf1).
  assert (is_Some (py_int p)) as [z Hz].
  { destruct (py_int p) eqn:Hp; [done|].
    pose proof (stage1_loop_raises (calculate_distances_row idx) WarnIntegrationRow
                  (calculate_distances_row_three idx) (calculate_distances_row_skip idx)
                  I s c p [] w1 Hrow Hp) as Hraise.
    unfold calculate_distances, bind, open_read in Hcalc. rewrite HI1 in Hcalc.
    by rewrite Hcalc in Hraise. }
  apply (calculate_distances_Ok _ _ _ _ _ _ HI1) in Hcalc as ->.
  destruct (read_enzyme_positions_keys _ _ _ _ _ HE Hread) as [Hkeys _].
  exists idx. rewrite Hread. split; [done|].
  rewrite write_results_run in Hwrite.
  destruct (site_rows idx I) as [|row_example rest] eqn:Hrows.
  - exfalso. assert ([PStr s; PStr c; PInt z] ++ enzyme_columns idx c z
                     ∈ site_rows idx I) as Hin.
    { apply elem_of_site_rows. by exists s, c, p, z. }
    rewrite Hrows in Hin. by apply elem_of_nil in Hin.
  - injection Hwrite as <-. simpl. rewrite lookup_insert_eq. f_equal.
    unfold results_table. simpl. f_equal.
    assert (row_example ∈ site_rows idx I) as Hin by (rewrite Hrows; by left).
    apply elem_of_site_rows in Hin as (s' & c' & p' & z' & _ & _ & ->).
    change (drop 3 _) with (enzyme_columns idx c' z').
    rewrite enzyme_columns_every_third, <- Hkeys.
    f_equal. clear. induction idx as [|[e ch] idx IH]; [done|].
    simpl. by rewrite <- IH.
Qed.

(** X15.  Missing input files.  Each command opens its input files in a
    fixed order and stops at the first one that is not there with
    [FileNotFoundError], having written no file: [calc-distances] opens the
    integration file only after the whole enzyme file was read, and
    [finalize-distances] opens the lengths, the directions and the distances
    file in that order, each only after the one before was read without
    error. *)
Theorem input_file_missing (w : world) :
  (∀ enzyme_file integration_file output,
     files w !! enzyme_file = None →
     main (CalcDistances enzyme_file integration_file output) w
     = (Raise FileNotFoundError, w))
  ∧ (∀ enzyme_file integration_file output idx w1,
       read_enzyme_positions enzyme_file w = (Ok idx, w1) →
       files w !! integration_file = None →
       main (CalcDistances enzyme_file integration_file output) w
       = (Raise FileNotFoundError, w1)
       ∧ files w1 = files w)
  ∧ (∀ lengths_file directions_file distances_file output,
       files w !! lengths_file = None →
       main (FinalizeDistances lengths_file directions_file distances_file output) w
       = (Raise FileNotFoundError, w))
  ∧ (∀ lengths_file directions_file distances_file output lengths,
       read_fragment_lengths lengths_file w = (Ok lengths, w) →
       files w !! directions_file = None →
       main (FinalizeDistances lengths_file directions_file distances_file output) w
       = (Raise FileNotFoundError, w))
  ∧ (∀ lengths_file directions_file distances_file output lengths directions,
       read_fragment_lengths lengths_file w = (Ok lengths, w) →
       read_directions directions_file w = (Ok directions, w) →
       files w !! distances_file = None →
       main (FinalizeDistances lengths_file directions_file distances_file output) w
       = (Raise FileNotFoundError, w)).
Proof.
  split; [|split; [|split; [|split]]].
  - intros ef if_ out Hnone. simpl.
    unfold bind, read_enzyme_positions, bind, open_read. by rewrite Hnone.
  - intros ef if_ out idx w1 Hread Hnone.
    pose proof (read_enzyme_positions_files ef w) as Hf1.
    rewrite Hread in Hf1. simpl in Hf1. split; [|done].
    simpl. rewrite (bind_Ok _ _ _ _ _ Hread).
    unfold bind, calculate_distances, bind, open_read. by rewrite Hf1, Hnone.
  - intros lf df sf out Hnone. simpl.
    unfold bind, read_fragment_lengths, bind, open_read. by rewrite Hnone.
  - intros lf df sf out lengths Hl Hnone. simpl. rewrite (bind_Ok _ _ _ _ _ Hl).
    unfold bind, read_directions, bind, open_read. by rewrite Hnone.
  - intros lf df sf out lengths directions Hl Hd Hnone. simpl.
    rewrite (bind_Ok _ _ _ _ _ Hl), (bind_Ok _ _ _ _ _ Hd).
    unfold bind, calculate_final_distances, bind, open_read. by rewrite Hnone.
Qed.

Lemma foldM_exn {S A} (body : S → A → M S) (Q : exn → Prop) (l : list A) :
  (∀ acc x w e, x ∈ l → (body acc x w).1 = Raise e → Q e) →
  ∀ acc w e, (foldM body acc l w).1 = Raise e → Q e.
Proof.
  induction l as [|x l IH]; intros HQ acc w e Hraise; [done|].
  simpl in Hraise. unfold bind in Hraise.
  destruct (body acc x w) as [[acc1|e1] w1] eqn:Hx.
  - apply (IH (λ acc0 x0 w0 e0 Hin, HQ acc0 x0 w0 e0 (list_elem_of_further _ _ _ Hin))
              _ _ _ Hraise).
  - simpl in Hraise. injection Hraise as ->. apply (HQ acc x w); [by left|].
    by rewrite Hx.
Qed.

Lemma final_distance_exn row sd enzyme (offsets : gmap string Z) dt w e :
  is_Some (offsets !! dt) →
  (final_distance row sd enzyme offsets dt w).1 = Raise e →
  e = ValueError ∨ e = TypeError.
Proof.
  intros [offset Hoffset].
  unfold final_distance, bind, getitem, int_cell, int_str, ret, raise.
  rewrite Hoffset.
  repeat (case_match; simplify_eq/=; try done); intros; simplify_eq; tauto.
Qed.

(** X17.  The only ways [calculate_final_distances] can fail on a
    distances table whose header has the three identity columns, with a
    Spec in which every enzyme has both offsets (as [read_fragment_lengths]
    returns it): a distance cell that is chosen by a direction and is
    neither ["N/A"] nor an integer ([ValueError]), or one that is missing
    because the row is shorter than the header ([TypeError]).  There is no
    [KeyError] and no [FileNotFoundError]. *)
Theorem calculate_final_distances_failures (distances_file : string)
    (directions : directions_t) (lengths : lengths_t) (w : world)
    (fieldnames : list string) (data : list (list string)) (e : exn) :
  files w !! distances_file = Some (fieldnames :: data) →
  (∀ k, k ∈ identity_columns → k ∈ fieldnames) →
  (∀ enzyme offsets, (enzyme, offsets) ∈ lengths →
     is_Some (offsets !! "L") ∧ is_Some (offsets !! "H")) →
  (calculate_final_distances distances_file directions lengths w).1 = Raise e →
  e = ValueError ∨ e = TypeError.
Proof.
  intros Hdf Hid Hlengths.
  unfold calculate_final_distances, bind at 1, open_read. rewrite Hdf.
  unfold bind at 1.
  destruct (foldM (calculate_final_distances_row directions lengths) _ _ w)
    as [[[finals fns]|e1] w1] eqn:Hloop; [done|].
  simpl. intros [= <-].
  apply (foldM_exn (calculate_final_distances_row directions lengths)
           (λ e, e = ValueError ∨ e = TypeError) (DictReader (fieldnames :: data)))
    with ([], {[ "IntegrationSite#"; "Chromosome"; "Position" ]}) w;
    [|by rewrite Hloop].
  intros [recs fns0] row w0 e0 Hrow.
  assert (∀ k, k ∈ identity_columns → is_Some (row !! k)) as Hcols.
  { intros k Hk. apply (DictReader_is_Some fieldnames data row k Hrow). by apply Hid. }
  destruct (Hcols "IntegrationSite#") as [site Hs]; [by left|].
  destruct (Hcols "Chromosome") as [chrom Hc]; [right; by left|].
  destruct (Hcols "Position") as [pos Hp]; [right; right; by left|].
  unfold calculate_final_distances_row, bind at 1, getitem. rewrite Hs.
  unfold ret at 1, bind at 1. rewrite Hc. unfold ret at 1, bind at 1. rewrite Hp.
  unfold ret at 1, bind at 1.
  destruct (foldM (calculate_final_distances_enzyme row _) _ lengths w0)
    as [[[nr f]|e2] w2] eqn:Hinner; [done|].
  simpl. intros [= <-].
  eapply (foldM_exn (calculate_final_distances_enzyme row _)
            (λ e, e = ValueError ∨ e = TypeError) lengths); [|by rewrite Hinner].
  intros [nr0 f0] [enzyme offsets] w3 e3 Hitem.
  destruct (Hlengths enzyme offsets Hitem) as [HL HH].
  unfold calculate_final_distances_enzyme.
  apply (foldM_exn _ (λ e, e = ValueError ∨ e = TypeError) ["L"; "H"]).
  intros [nr1 f1] dt w4 e4 Hdt. simpl. unfold bind at 1.
  destruct (final_distance row _ enzyme offsets dt w4) as [[v|e5] w5] eqn:Hfinal;
    [done|].
  simpl. intros [= <-].
  apply (final_distance_exn row (default ∅ (directions !! site)) enzyme offsets dt w4).
  - rewrite !elem_of_cons, elem_of_nil in Hdt. by destruct Hdt as [->|[->|[]]].
  - by rewrite Hfinal.
Qed.

End script.

(** * The examples, run with [example_interpreter] *)

#[global] Existing Instance example_interpreter.

Lemma find_closest_correct_witness :
  Sorted Z.le [100; 300; 300; 500]
  ∧ greatest_below [100; 300; 300; 500] 300 (Some 100)
  ∧ least_above [100; 300; 300; 500] 300 (Some 500).
Proof.
  assert (Sorted Z.le [100; 300; 300; 500]) as Hs by (repeat constructor; lia).
  split; [exact Hs|].
  destruct (find_closest_correct [100; 300; 300; 500] 300 Hs) as (Hu & Hd & _).
  split; [exact Hu|exact Hd].
Defined.

Lemma write_results_empty_witness :
  (main (CalcDistances "enzymes.csv" "blank.csv" "distances.csv")
        (World (<["blank.csv" := [[]; ["only"; "two"]]]> (files example_world)) [])).1
  = Ok ()
  ∧ files (main (CalcDistances "enzymes.csv" "blank.csv" "distances.csv")
             (World (<["blank.csv" := [[]; ["only"; "two"]]]> (files example_world)) [])).2
    !! "distances.csv" = None.
Proof.
  pose (w := World (<["blank.csv" := [[]; ["only"; "two"]]]> (files example_world)) []).
  destruct (write_results_empty "enzymes.csv" "blank.csv" "distances.csv"
              example_index
              w w
              (World (files w) [WarnIntegrationRow []; WarnIntegrationRow ["only"; "two"]]))
    as [_ Hmain].
  - vm_compute. reflexivity.
  - vm_compute. reflexivity.
  - fold w. rewrite Hmain. split; [reflexivity|]. vm_compute. reflexivity.
Defined.

Lemma malformed_rows_do_not_matter_witness :
  files (main (CalcDistances "e.csv" "i.csv" "o.csv") dirty_world).2 !! "o.csv"
  = files (main (CalcDistances "e.csv" "i.csv" "o.csv") cleaned_world).2 !! "o.csv".
Proof.
  destruct (malformed_rows_do_not_matter "e.csv" "i.csv" "o.csv"
              [["EcoRI"; "chr1"; "100"]; ["broken"]; ["EcoRI"; "chr1"; "500"]]
              [[]; ["site1"; "chr1"; "300"]; ["a"; "b"; "c"; "d"]] dirty_world)
    as (_ & Hout & _).
  - reflexivity.
  - reflexivity.
  - discriminate.
  - discriminate.
  - rewrite Hout. vm_compute. reflexivity.
Defined.

Lemma non_integer_field_aborts_witness :
  (main (CalcDistances "e.csv" "sites.csv" "o.csv")
        (World (<["e.csv" := [["EcoRI"; "chr1"; "100"]; ["EcoRI"; "chr1"; "12a"]]]>
                  (files example_world)) [])).1
  = Raise ValueError
  ∧ ∃ e, read_fragment_lengths "lengths.csv"
           (World {[ "lengths.csv" := [["Enzyme"; "Name"; "H"; "L"];
                                        ["x"; "EcoRI"; "200"; "1e3"]] ]} [])
         = (Raise e, World {[ "lengths.csv" := [["Enzyme"; "Name"; "H"; "L"];
                                                 ["x"; "EcoRI"; "200"; "1e3"]] ]} []).
Proof.
  destruct (non_integer_field_aborts "e.csv"
              [["EcoRI"; "chr1"; "100"]; ["EcoRI"; "chr1"; "12a"]]
              "EcoRI" "chr1" "12a"
              (World (<["e.csv" := [["EcoRI"; "chr1"; "100"]; ["EcoRI"; "chr1"; "12a"]]]>
                        (files example_world)) []))
    as (_ & _ & Hmain & _ & Hlengths).
  - reflexivity.
  - apply list_elem_of_In. simpl. tauto.
  - reflexivity.
  - split.
    + destruct (Hmain "sites.csv" "o.csv") as (w' & -> & _). reflexivity.
    + destruct (Hlengths "lengths.csv" ["Enzyme"; "Name"; "H"; "L"]
                  [["x"; "EcoRI"; "200"; "1e3"]] ["x"; "EcoRI"; "200"; "1e3"]
                  "L" "1e3"
                  (World {[ "lengths.csv" := [["Enzyme"; "Name"; "H"; "L"];
                                               ["x"; "EcoRI"; "200"; "1e3"]] ]} []))
        as (e & He & _).
      * reflexivity.
      * apply list_elem_of_In. simpl. tauto.
      * discriminate.
      * apply list_elem_of_In. simpl. tauto.
      * vm_compute. reflexivity.
      * reflexivity.
      * by exists e.
Defined.

Lemma final_distance_correct_witness :
  final_distance {[ "EcoRI UpstreamDist" := Some "200" ]}
                 {[ "EcoRI_H" := Some "up" ]} (Some "EcoRI")
                 {[ "L" := 50; "H" := -210 ]} "H" example_world
  = (Ok (PInt (-10)), example_world)
  ∧ ∃ finals fieldnames new_row v,
      calculate_final_distances "distances.csv" example_directions example_lengths
                                aligned_world
      = (Ok (finals, fieldnames), aligned_world)
      ∧ finals !! 0%nat = Some new_row
      ∧ new_row !! direction_key (Some "EcoRI") "L" = Some v
      ∧ final_distance
          (dict_of_row ["IntegrationSite#"; "Chromosome"; "Position";
                        "EcoRI UpstreamDist"; "EcoRI DownstreamDist"]
                       ["site1"; "chr1"; "300"; "200"; "N/A"])
          (default ∅ (example_directions !! Some "site1")) (Some "EcoRI")
          {[ "L" := 50; "H" := -10 ]} "L" aligned_world
        = (Ok v, aligned_world).
Proof.
  split.
  - destruct (final_distance_correct {[ "EcoRI UpstreamDist" := Some "200" ]}
                {[ "EcoRI_H" := Some "up" ]} (Some "EcoRI")
                {[ "L" := 50; "H" := -210 ]} "H" example_world)
      as (_ & _ & _ & Hcell & _).
    destruct (Hcell "EcoRI UpstreamDist") as (_ & _ & Hsum & _).
    + reflexivity.
    + apply (Hsum "200" 200 (-210)).
      * reflexivity.
      * discriminate.
      * reflexivity.
      * reflexivity.
  - destruct (final_distance_correct
                (dict_of_row ["IntegrationSite#"; "Chromosome"; "Position";
                              "EcoRI UpstreamDist"; "EcoRI DownstreamDist"]
                             ["site1"; "chr1"; "300"; "200"; "N/A"])
                (default ∅ (example_directions !! Some "site1")) (Some "EcoRI")
                {[ "L" := 50; "H" := -10 ]} "L" aligned_world)
      as (_ & _ & _ & _ & Hengine & Hnormal).
    destruct (Hnormal "distances.csv" example_directions example_lengths
                [["IntegrationSite#"; "Chromosome"; "Position";
                  "EcoRI UpstreamDist"; "EcoRI DownstreamDist"];
                 ["site1"; "chr1"; "300"; "200"; "N/A"]])
      as (finals & fieldnames & Hrun).
    + reflexivity.
    + intros row' Hrow'. apply list_elem_of_singleton in Hrow' as ->.
      exists (Some "site1"). split; [reflexivity|].
      split; [by eexists|]. split; [by eexists|].
      intros enzyme' offsets' dt' Hitem Hdt.
      apply list_elem_of_singleton in Hitem. injection Hitem as -> ->.
      apply elem_of_cons in Hdt as [->|Hdt];
        [|apply list_elem_of_singleton in Hdt as ->]; eexists; vm_compute; reflexivity.
    + destruct (Hengine "distances.csv" example_directions example_lengths
                  [["IntegrationSite#"; "Chromosome"; "Position";
                    "EcoRI UpstreamDist"; "EcoRI DownstreamDist"];
                   ["site1"; "chr1"; "300"; "200"; "N/A"]]
                  finals fieldnames aligned_world 0%nat (Some "site1") Hrun)
        as (_ & new_row & v & Hrec & Hv & Hfinal).
      * vm_compute. apply NoDup_singleton.
      * reflexivity.
      * reflexivity.
      * reflexivity.
      * reflexivity.
      * apply list_elem_of_In. simpl. tauto.
      * apply list_elem_of_In. simpl. tauto.
      * exists finals, fieldnames, new_row, v.
        split; [exact Hrun|]. split; [exact Hrec|]. split; [exact Hv|]. exact Hfinal.
Defined.

Lemma final_records_complete_witness :
  ∃ fieldnames,
    calculate_final_distances "distances.csv" example_directions example_lengths
                              aligned_world
    = (Ok ([aligned_record], fieldnames), aligned_world)
    ∧ fieldnames_cover_spec example_lengths fieldnames.
Proof.
  eexists. split; [vm_compute; reflexivity|].
  eapply (final_records_complete "distances.csv" example_directions example_lengths
            aligned_world aligned_world
            [["IntegrationSite#"; "Chromosome"; "Position";
              "EcoRI UpstreamDist"; "EcoRI DownstreamDist"];
             ["site1"; "chr1"; "300"; "200"; "N/A"]]
            [aligned_record]).
  - reflexivity.
  - vm_compute. reflexivity.
  - discriminate.
Defined.

(** C9 as stated fails: on a distances table without data rows the
    returned field names lack the composite names of the Spec. *)
Lemma fieldnames_incomplete_without_rows :
  ∃ fieldnames,
    calculate_final_distances "distances.csv" example_directions example_lengths
                              header_only_world
    = (Ok ([], fieldnames), header_only_world)
    ∧ ¬ fieldnames_cover_spec example_lengths fieldnames.
Proof.
  eexists. split; [vm_compute; reflexivity|].
  intros Hcover. specialize (Hcover "EcoRI_L") as [_ Hin].
  assert ("EcoRI_L" ∈ identity_columns
          ∨ ∃ enzyme offsets direction_type,
              (enzyme, offsets) ∈ example_lengths ∧ direction_type ∈ ["L"; "H"]
              ∧ "EcoRI_L" = direction_key enzyme direction_type) as Hspec.
  { right. exists (Some "EcoRI"), {[ "L" := 50; "H" := -10 ]}, "L".
    split; [by left|]. split; [by left|]. reflexivity. }
  apply Hin in Hspec.
  rewrite !elem_of_cons, elem_of_nil in Hspec.
  destruct Hspec as [?|[?|[?|[]]]]; discriminate.
Qed.

Lemma sentinel_token_shared_witness :
  (∃ lines line,
     files (main (CalcDistances "enzymes.csv" "sites.csv" "o.csv")
                 (World (<["sites.csv" := [["site1"; "chr1"; "100"]]]>
                           (files example_world)) [])).2 !! "o.csv"
     = Some (["IntegrationSite#"; "Chromosome"; "Position";
              "EcoRI UpstreamDist"; "EcoRI DownstreamDist"] :: lines)
     ∧ line ∈ lines
     ∧ line !! 3%nat = Some "EcoRI"
     ∧ line !! 4%nat = Some "N/A"
     ∧ line !! 5%nat = Some "400")
  ∧ final_distance {[ "EcoRI UpstreamDist" := Some "N/A" ]}
                   {[ "EcoRI_L" := Some "up" ]} (Some "EcoRI")
                   {[ "L" := 50; "H" := -10 ]} "L" example_world
    = (Ok (PStr "N/A"), example_world).
Proof.
  destruct sentinel_token_shared as (_ & Hwritten & Hstage2 & _).
  split.
  - destruct (Hwritten "enzymes.csv" "sites.csv" "o.csv"
                (World (<["sites.csv" := [["site1"; "chr1"; "100"]]]>
                          (files example_world)) [])
                (main (CalcDistances "enzymes.csv" "sites.csv" "o.csv")
                      (World (<["sites.csv" := [["site1"; "chr1"; "100"]]]>
                                (files example_world)) [])).2
                [["site1"; "chr1"; "100"]] "site1" "chr1" "100")
      as (idx & p & lines & line & Hidx & Hp & Hfile & Hline & _ & _ & Hfields).
    + vm_compute. reflexivity.
    + reflexivity.
    + apply list_elem_of_In. simpl. tauto.
    + assert (idx = [("EcoRI", [("chr1", [100; 500])])]) as ->.
      { revert Hidx. vm_compute. intros Hidx. by injection Hidx as <-. }
      assert (p = 100) as ->.
      { revert Hp. vm_compute. intros Hp. by injection Hp as <-. }
      destruct (Hfields 0%nat "EcoRI" [("chr1", [100; 500])] eq_refl)
        as (up & down & H3 & H4 & H5 & Hup & _ & _ & Hdown & _).
      exists lines, line.
      split; [exact Hfile|]. split; [exact Hline|]. split; [exact H3|].
      split.
      * etrans; [exact H4|]. f_equal. apply Hup. reflexivity.
      * etrans; [exact H5|]. f_equal. apply (Hdown 500). reflexivity.
  - apply (Hstage2 _ _ _ _ _ _ "EcoRI UpstreamDist" "N/A"); reflexivity.
Defined.

(** C2 fails on the code.  A row that [calculate_distances] builds carries,
    for every enzyme, the enzyme name and the two distances, and
    [write_results] writes the row as it is, under a header that has only
    the two distance columns per enzyme: with [n] enzymes the header has
    [3 + 2n] fields and every data row [3 + 3n].  On the example of the
    documentation the header has five fields and the row six. *)
Theorem results_rows_wider_than_header :
  (∀ (ep : index) site_id chromosome position,
     let row_data :=
       [PStr site_id; PStr chromosome; PInt position]
       ++ enzyme_columns ep chromosome position in
     length (results_header (every_third (drop 3 row_data)))
     = (3 + 2 * length ep)%nat
     ∧ length (csv_field <$> row_data) = (3 + 3 * length ep)%nat)
  ∧ files (main (CalcDistances "enzymes.csv" "sites.csv" "distances.csv")
                example_world).2 !! "distances.csv"
    = Some [["IntegrationSite#"; "Chromosome"; "Position";
             "EcoRI UpstreamDist"; "EcoRI DownstreamDist"];
            ["site1"; "chr1"; "300"; "EcoRI"; "200"; "200"]].
Proof.
  split; [|vm_compute; reflexivity].
  intros ep site_id chromosome position row_data. subst row_data. split.
  - change (drop 3 _) with (enzyme_columns ep chromosome position).
    rewrite results_header_length, enzyme_columns_every_third.
    by rewrite length_fmap.
  - rewrite length_fmap. simpl. by rewrite enzyme_columns_length.
Qed.

(** C3 fails on the code, from the same defect.  Read back through the
    header, the cell under ["EcoRI UpstreamDist"] is the enzyme name, so
    stage 2 run on the output of stage 1 with every direction ["up"] ends
    with [ValueError] and writes nothing, where the raw upstream distance is
    200 and the [L] offset 50.  On a table whose rows do match the header
    stage 2 gives 250. *)
Theorem stage2_on_stage1_output_fails :
  let stage1 := main (CalcDistances "enzymes.csv" "sites.csv" "distances.csv")
                     example_world in
  let stage2 := main (FinalizeDistances "lengths.csv" "directions.csv"
                                        "distances.csv" "final.csv") stage1.2 in
  stage1.1 = Ok ()
  ∧ enzyme_distances [("chr1", [100; 500])] "chr1" 300 = (PInt 200, PInt 200)
  ∧ (DictReader <$> files stage1.2 !! "distances.csv")
    = Some [ {[ "IntegrationSite#" := Some "site1"; "Chromosome" := Some "chr1";
                "Position" := Some "300"; "EcoRI UpstreamDist" := Some "EcoRI";
                "EcoRI DownstreamDist" := Some "200" ]} ]
  ∧ stage2.1 = Raise ValueError
  ∧ files stage2.2 !! "final.csv" = None
  ∧ (∃ fieldnames,
       calculate_final_distances "distances.csv" example_directions example_lengths
                                 aligned_world
       = (Ok ([aligned_record], fieldnames), aligned_world))
  ∧ aligned_record !! "EcoRI_L" = Some (PInt 250).
Proof.
  repeat split; try (vm_compute; reflexivity).
  eexists. vm_compute. reflexivity.
Qed.

Lemma read_enzyme_positions_index_witness :
  index_lookup example_index "EcoRI" "chr1" = Some [100; 500]
  ∧ Sorted Z.le [100; 500].
Proof.
  destruct (read_enzyme_positions_index "enzymes.csv" enzyme_csv example_world
              example_world example_index) as [Hlook Hsorted].
  - reflexivity.
  - reflexivity.
  - split.
    + rewrite Hlook. reflexivity.
    + apply (Hsorted "EcoRI" "chr1"). reflexivity.
Defined.

Lemma read_enzyme_positions_enzyme_order_witness :
  map fst (read_enzyme_positions_order_index) = ["BamHI"; "EcoRI"].
Proof.
  destruct (read_enzyme_positions_enzyme_order "e.csv" read_enzyme_positions_order_csv
              (World {[ "e.csv" := read_enzyme_positions_order_csv ]} [])
              (World {[ "e.csv" := read_enzyme_positions_order_csv ]}
                     [WarnEnzymeRow ["EcoRI"]])
              read_enzyme_positions_order_index) as (Hkeys & _).
  - reflexivity.
  - reflexivity.
  - rewrite Hkeys. reflexivity.
Defined.

Lemma calculate_distances_rows_witness :
  calculate_distances example_index "sites.csv" example_world
  = (Ok [[PStr "site1"; PStr "chr1"; PInt 300; PStr "EcoRI"; PInt 200; PInt 200]],
     example_world)
  ∧ length [[PStr "site1"; PStr "chr1"; PInt 300; PStr "EcoRI"; PInt 200; PInt 200]]
    = 1%nat.
Proof.
  assert (calculate_distances example_index "sites.csv" example_world
          = (Ok [[PStr "site1"; PStr "chr1"; PInt 300;
                  PStr "EcoRI"; PInt 200; PInt 200]], example_world)) as Hrun
    by reflexivity.
  split; [exact Hrun|].
  destruct (calculate_distances_rows example_index "sites.csv" integration_csv
              example_world example_world _ eq_refl Hrun) as (_ & Hlen & _).
  exact Hlen.
Defined.

Lemma calculate_distances_positive_witness :
  calculate_distances [("EcoRI", [("chr1", [500; 100; 300])])] "sites.csv"
                      example_world
  = (Ok [[PStr "site1"; PStr "chr1"; PInt 300; PStr "EcoRI"; PStr "N/A"; PInt 200]],
     example_world)
  ∧ 0 < 200.
Proof.
  assert (calculate_distances [("EcoRI", [("chr1", [500; 100; 300])])] "sites.csv"
                              example_world
          = (Ok [[PStr "site1"; PStr "chr1"; PInt 300;
                  PStr "EcoRI"; PStr "N/A"; PInt 200]], example_world)) as Hrun
    by reflexivity.
  split; [exact Hrun|].
  apply (calculate_distances_positive _ "sites.csv" integration_csv
           example_world example_world _ eq_refl Hrun
           [PStr "site1"; PStr "chr1"; PInt 300; PStr "EcoRI"; PStr "N/A"; PInt 200]).
  - by left.
  - simpl. right. right. by left.
Defined.

Lemma stage1_nearest_sites_witness :
  enzyme_distances [("chr2", [70]); ("chr1", [9])] "chr1" 9 = (PStr "N/A", PStr "N/A").
Proof.
  destruct (stage1_nearest_sites "e.csv" read_enzyme_positions_order_csv
              (World {[ "e.csv" := read_enzyme_positions_order_csv ]} [])
              (World {[ "e.csv" := read_enzyme_positions_order_csv ]}
                     [WarnEnzymeRow ["EcoRI"]])
              read_enzyme_positions_order_index
              "BamHI" [("chr2", [70]); ("chr1", [9])] "chr1" 9)
    as (u & d & Hu & Hd & ->).
  - reflexivity.
  - reflexivity.
  - by left.
  - assert (file_positions read_enzyme_positions_order_csv "BamHI" "chr1" = [9])
      as Hfp by reflexivity.
    rewrite Hfp in Hu, Hd.
    destruct u as [x|], d as [y|]; simpl in *; try done.
    + destruct Hu as (Hx & Hlt & _). exfalso.
      apply list_elem_of_singleton in Hx. lia.
    + destruct Hu as (Hx & Hlt & _). exfalso.
      apply list_elem_of_singleton in Hx. lia.
    + destruct Hd as (Hy & Hlt & _). exfalso.
      apply list_elem_of_singleton in Hy. lia.
Defined.


Lemma read_directions_sites_witness :
  ∃ d, read_directions "directions.csv" example_world = (Ok d, example_world)
       ∧ d !! Some "site1"
         = Some {[ "IntegrationSite#" := Some "site1";
                   "EcoRI_L" := Some "up"; "EcoRI_H" := Some "up" ]}
       ∧ d !! Some "site2" = None.
Proof.
  destruct (read_directions_sites "directions.csv" directions_csv example_world)
    as (_ & Hok & _); [reflexivity|].
  destruct (Hok ["IntegrationSite#"; "EcoRI_L"; "EcoRI_H"] [["site1"; "up"; "up"]])
    as (d & Hrun & Hd).
  - reflexivity.
  - by left.
  - exists d. split; [exact Hrun|]. rewrite !Hd. split; reflexivity.
Defined.

Lemma read_fragment_lengths_spec_witness :
  read_fragment_lengths "lengths.csv" example_world = (Ok example_lengths, example_world)
  ∧ od_get (Some "EcoRI") example_lengths = Some {[ "L" := 50; "H" := -10 ]}.
Proof.
  assert (read_fragment_lengths "lengths.csv" example_world
          = (Ok example_lengths, example_world)) as Hrun by reflexivity.
  split; [exact Hrun|].
  destruct (read_fragment_lengths_spec "lengths.csv" lengths_csv example_world
              example_world example_lengths eq_refl Hrun) as (_ & _ & _ & Hget & _).
  rewrite Hget. reflexivity.
Defined.



Lemma unknown_site_not_available_witness :
  (∃ fieldnames,
     calculate_final_distances "distances.csv" ∅ example_lengths aligned_world
     = (Ok ([unlisted_record], fieldnames), aligned_world))
  ∧ unlisted_record !! direction_key (Some "EcoRI") "H" = Some (PStr "N/A").
Proof.
  assert (∃ fieldnames,
            calculate_final_distances "distances.csv" ∅ example_lengths aligned_world
            = (Ok ([unlisted_record], fieldnames), aligned_world)) as [fieldnames Hrun].
  { eexists. vm_compute. reflexivity. }
  split; [by exists fieldnames|].
  apply (unknown_site_not_available "distances.csv" ∅ example_lengths
           aligned_world aligned_world [unlisted_record] fieldnames
           [["IntegrationSite#"; "Chromosome"; "Position";
             "EcoRI UpstreamDist"; "EcoRI DownstreamDist"];
            ["site1"; "chr1"; "300"; "200"; "N/A"]] 0%nat
           (dict_of_row ["IntegrationSite#"; "Chromosome"; "Position";
                         "EcoRI UpstreamDist"; "EcoRI DownstreamDist"]
                        ["site1"; "chr1"; "300"; "200"; "N/A"])
           unlisted_record (Some "site1") Hrun)
    with (offsets := {[ "L" := 50; "H" := -10 ]}).
  - reflexivity.
  - reflexivity.
  - reflexivity.
  - vm_compute. reflexivity.
  - reflexivity.
  - by left.
  - right. by left.
Defined.

Lemma identity_columns_copied_witness :
  aligned_record !! "Position" = Some (PStr "300").
Proof.
  destruct (identity_columns_copied "distances.csv" example_directions example_lengths
              aligned_world aligned_world [aligned_record]
              (elements (dom aligned_record))
              [["IntegrationSite#"; "Chromosome"; "Position";
                "EcoRI UpstreamDist"; "EcoRI DownstreamDist"];
               ["site1"; "chr1"; "300"; "200"; "N/A"]] 0%nat
              (dict_of_row ["IntegrationSite#"; "Chromosome"; "Position";
                            "EcoRI UpstreamDist"; "EcoRI DownstreamDist"]
                           ["site1"; "chr1"; "300"; "200"; "N/A"])
              aligned_record) with "Position" as [_ Hpos].
  - vm_compute. reflexivity.
  - reflexivity.
  - reflexivity.
  - reflexivity.
  - right. right. by left.
  - rewrite Hpos. vm_compute. reflexivity.
Defined.

Lemma missing_identity_column_witness :
  calculate_final_distances "d.csv" example_directions example_lengths
    (World {[ "d.csv" := [["IntegrationSite#"; "Position"; "EcoRI UpstreamDist"];
                          ["site1"; "300"; "200"]] ]} [])
  = (Raise KeyError,
     World {[ "d.csv" := [["IntegrationSite#"; "Position"; "EcoRI UpstreamDist"];
                          ["site1"; "300"; "200"]] ]} []).
Proof.
  apply (missing_identity_column "d.csv" example_directions example_lengths _
           ["IntegrationSite#"; "Position"; "EcoRI UpstreamDist"]
           [["site1"; "300"; "200"]] "Chromosome").
  - reflexivity.
  - discriminate.
  - right. by left.
  - rewrite !elem_of_cons, elem_of_nil. intros [?|[?|[?|[]]]]; discriminate.
Defined.

Lemma calc_distances_header_witness :
  head <$> files (main (CalcDistances "e.csv" "sites.csv" "o.csv")
                       (World (<["e.csv" := read_enzyme_positions_order_csv]>
                                 (files example_world)) [])).2 !! "o.csv"
  = Some (Some ["IntegrationSite#"; "Chromosome"; "Position";
                "BamHI UpstreamDist"; "BamHI DownstreamDist";
                "EcoRI UpstreamDist"; "EcoRI DownstreamDist"]).
Proof.
  destruct (calc_distances_header "e.csv" "sites.csv" "o.csv"
              read_enzyme_positions_order_csv integration_csv
              (World (<["e.csv" := read_enzyme_positions_order_csv]>
                        (files example_world)) [])
              (main (CalcDistances "e.csv" "sites.csv" "o.csv")
                    (World (<["e.csv" := read_enzyme_positions_order_csv]>
                              (files example_world)) [])).2)
    as (idx & _ & ->).
  - reflexivity.
  - reflexivity.
  - vm_compute. reflexivity.
  - exists "site1", "chr1", "300". by left.
  - reflexivity.
Defined.

Lemma input_file_missing_witness :
  main (FinalizeDistances "lengths.csv" "directions.csv" "distances.csv" "final.csv")
       example_world
  = (Raise FileNotFoundError, example_world).
Proof.
  destruct (input_file_missing example_world) as (_ & _ & _ & _ & Hdist).
  apply (Hdist "lengths.csv" "directions.csv" "distances.csv" "final.csv"
           example_lengths example_directions); reflexivity.
Defined.

Lemma calculate_final_distances_failures_witness :
  (calculate_final_distances "d.csv" example_directions example_lengths
     (World {[ "d.csv" := [["IntegrationSite#"; "Chromosome"; "Position";
                            "EcoRI UpstreamDist"];
                           ["site1"; "chr1"; "300"]] ]} [])).1
  = Raise TypeError.
Proof.
  destruct (calculate_final_distances_failures "d.csv" example_directions
              example_lengths
              (World {[ "d.csv" := [["IntegrationSite#"; "Chromosome"; "Position";
                                     "EcoRI UpstreamDist"];
                                    ["site1"; "chr1"; "300"]] ]} [])
              ["IntegrationSite#"; "Chromosome"; "Position"; "EcoRI UpstreamDist"]
              [["site1"; "chr1"; "300"]] TypeError) as [Habs|_].
  - reflexivity.
  - intros k Hk. unfold identity_columns in Hk.
    rewrite !elem_of_cons, elem_of_nil in *. tauto.
  - intros enzyme offsets Hin. apply list_elem_of_singleton in Hin.
    injection Hin as -> ->. split; by eexists.
  - vm_compute. reflexivity.
  - discriminate.
  - vm_compute. reflexivity.
Defined.
